(** * Sirius Games: the ALMA chat page

    A shallow embedding of [src/app/alma/page.tsx]: the message store, the
    [handleSendMessage] handler with its [setTimeout] callback, and the
    response generator [generateAlmaResponse]; and of the components
    [ChatMessage] and [Card] of [src/components].

    - A JS [number] is an IEEE-754 binary64 value, modelled by [spec_float]
      with precision 53 and exponent bound 1024; [*] and [+] are the
      correctly rounded [SFmul] and [SFadd].
    - A JS string is modelled by [string], the byte sequence of its UTF-8
      encoding; the page only concatenates strings.
    - [Date.now()], [new Date()] and [Math.random()] are inputs of the
      handlers, one argument per read, in the order the source reads them.
      A time value is an integer number of milliseconds, far below [2^53],
      so [Date.now() + 1] is exact and is modelled in [Z].
    - React state is passed explicitly: a [Session] holds what [useState]
      holds ([messages], [isTyping]) together with the timers that
      [setTimeout] has registered and that have not fired yet, and whether
      the component is still mounted. The timers belong to the browser and
      outlive the component; the state setters belong to React, which
      drops an update addressed to a component that is no longer
      mounted. *)

From Stdlib Require Import ZArith Lia Bool List String Ascii DecimalString.
From Stdlib Require Import Floats.SpecFloat.
From Stdlib Require DecimalZ DecimalPos.
Import ListNotations.
Open Scope string_scope.
Open Scope list_scope.
Open Scope Z_scope.

(* ================================================================= *)
(** ** Numbers *)

Definition prec : Z := 53.
Definition emax : Z := 1024.

Definition number : Type := spec_float.

(** A numeric literal with an integer value, such as [1000] or [2000]. *)
Definition num (z : Z) : number := binary_normalize prec emax z 0 false.

(** [Math.floor]: the largest integral number not above [x]; zeros,
    infinities and NaN are returned as they are. *)
Definition Math_floor (x : number) : number :=
  match x with
  | S754_finite s m e =>
      if 0 <=? e then x
      else binary_normalize prec emax (cond_Zopp s (Zpos m) / 2 ^ (- e)) 0 s
  | _ => x
  end.

(** The array index a number denotes when it is used as a property key:
    a non-negative integer, or none. *)
Definition index_of_number (i : number) : option nat :=
  match i with
  | S754_zero _ => Some 0%nat
  | S754_finite false m e =>
      if 0 <=? e then Some (Z.to_nat (Zpos m * 2 ^ e))
      else if Zpos m mod 2 ^ (- e) =? 0 then Some (Z.to_nat (Zpos m / 2 ^ (- e)))
      else None
  | _ => None
  end.

(** [a[i]]: the element at index [i], or [undefined] ([None]). *)
Definition array_get {A : Type} (a : list A) (i : number) : option A :=
  match index_of_number i with
  | Some n => nth_error a n
  | None => None
  end.

(** What [Math.random()] may return: a binary64 value [r] with
    [0 <= r < 1]. *)
Definition in_unit_interval (r : number) : bool :=
  valid_binary prec emax r && SFleb (num 0) r && SFltb r (num 1).

(* ================================================================= *)
(** ** Strings *)

Definition dquote : string := String (ascii_of_nat 34) EmptyString.

(** [`${v}`] for a value that is a string or [undefined]. *)
Definition interpolate (v : option string) : string :=
  match v with
  | Some s => s
  | None => "undefined"
  end.

(** [n.toString()] for an integral number. *)
Definition toString (n : Z) : string := NilZero.string_of_int (Z.to_int n).

(** [s.startsWith(p)]. *)
Fixpoint startsWith (s p : string) {struct p} : bool :=
  match p with
  | EmptyString => true
  | String a p' =>
      match s with
      | EmptyString => false
      | String b s' => Ascii.eqb a b && startsWith s' p'
      end
  end.

(** [s.includes(sub)]. *)
Fixpoint includes (s sub : string) : bool :=
  startsWith s sub ||
  match s with
  | EmptyString => false
  | String _ s' => includes s' sub
  end.

Definition substring_of (sub s : string) : Prop :=
  exists pre post : string, s = (pre ++ sub ++ post)%string.

(* ================================================================= *)
(** ** Data model *)

Inductive Role : Type := user | assistant.

(** [interface Message]; a [Date] is its time value in milliseconds. *)
Record Message : Type := {
  id : string;
  content : string;
  role : Role;
  timestamp : Z
}.

(** A pending [setTimeout]: the delay it was registered with and the
    [content] its callback closes over. *)
Record Timer : Type := {
  delay : number;
  captured : string
}.

(** The state of one [AlmaPage] instance. [mounted] records whether the
    view is still alive; the page never reads it, React's setters do. *)
Record Session : Type := {
  messages : list Message;
  isTyping : bool;
  timers : list Timer;
  mounted : bool
}.

Definition greeting : string :=
  "¡Hola! Soy ALMA, tu asistente de inteligencia artificial. ¿En qué puedo ayudarte hoy?".

(** The initial [useState] values; [now] is the [new Date()] of the first
    render. *)
Definition initial (now : Z) : Session :=
  {| messages := [ {| id := "1"; content := greeting; role := assistant;
                      timestamp := now |} ];
     isTyping := false;
     timers := [];
     mounted := true |}.

(* ================================================================= *)
(** ** Response generator *)

Definition closing : string :=
  " ¿Te gustaría que profundice en algún aspecto específico?".

Definition responses (userInput : string) : list string :=
  [ ("Entiendo tu consulta sobre " ++ dquote ++ userInput ++ dquote
       ++ ". Como ALMA, puedo ayudarte a analizar este tema desde diferentes perspectivas.")%string;
    "Es una pregunta muy interesante. Basándome en mi conocimiento, puedo decirte que...";
    ("Me parece un tema fascinante. Permíteme compartir contigo algunos insights sobre "
       ++ dquote ++ userInput ++ dquote ++ ".")%string;
    "Gracias por compartir eso conmigo. Como agente de IA, mi análisis sugiere que...";
    "Excelente pregunta. Desde mi perspectiva como ALMA, considero que este es un punto muy relevante." ].

(** [Math.floor(Math.random() * responses.length)] for the draw [random]. *)
Definition template_index (random : number) (userInput : string) : number :=
  Math_floor (SFmul prec emax random
                (num (Z.of_nat (List.length (responses userInput))))).

(** [generateAlmaResponse]; [random] is the value of its [Math.random()]. *)
Definition generateAlmaResponse (random : number) (userInput : string) : string :=
  let randomResponse :=
    array_get (responses userInput) (template_index random userInput) in
  (interpolate randomResponse ++ closing)%string.

(** The five possible replies to [userInput]: each template followed by
    the closing sentence. *)
Definition template_set (userInput : string) : list string :=
  map (fun t => (t ++ closing)%string) (responses userInput).

(* ================================================================= *)
(** ** State updates and handlers *)

(** The two setters returned by [useState]. React applies an update to a
    mounted component only: a setter called after the view is destroyed
    changes nothing. *)
Definition setMessages (f : list Message -> list Message) (st : Session) : Session :=
  if mounted st
  then {| messages := f (messages st); isTyping := isTyping st;
          timers := timers st; mounted := mounted st |}
  else st.

Definition setIsTyping (b : bool) (st : Session) : Session :=
  if mounted st
  then {| messages := messages st; isTyping := b;
          timers := timers st; mounted := mounted st |}
  else st.

(** [setTimeout(callback, ms)] where the callback closes over [content].
    The timer is the browser's: it is registered whatever the state of the
    component. *)
Definition setTimeout (content : string) (ms : number) (st : Session) : Session :=
  {| messages := messages st; isTyping := isTyping st;
     timers := timers st ++ [ {| delay := ms; captured := content |} ];
     mounted := mounted st |}.

(** The delay expression [1000 + Math.random() * 2000]. *)
Definition response_delay (random : number) : number :=
  SFadd prec emax (num 1000) (SFmul prec emax random (num 2000)).

(** [handleSendMessage(content)]: [now_id] is its [Date.now()], [now_ts]
    its [new Date()], [random] its [Math.random()]. *)
Definition handleSendMessage (now_id now_ts : Z) (random : number)
    (content : string) (st : Session) : Session :=
  let userMessage :=
    {| id := toString now_id; content := content; role := user;
       timestamp := now_ts |} in
  let st := setMessages (fun prev => prev ++ [userMessage]) st in
  let st := setIsTyping true st in
  setTimeout content (response_delay random) st.

(** The body of the [setTimeout] callback, for the captured [content]. *)
Definition timeoutCallback (now_id now_ts : Z) (random : number)
    (content : string) (st : Session) : Session :=
  let almaResponse :=
    {| id := toString (now_id + 1);
       content := generateAlmaResponse random content;
       role := assistant;
       timestamp := now_ts |} in
  let st := setMessages (fun prev => prev ++ [almaResponse]) st in
  setIsTyping false st.

Fixpoint remove_nth {A : Type} (i : nat) (l : list A) : list A :=
  match l, i with
  | [], _ => []
  | _ :: l', O => l'
  | x :: l', S i' => x :: remove_nth i' l'
  end.

(** The [i]-th pending timer fires: it leaves the pending list and its
    callback runs. There is no such step when no timer has index [i]. *)
Definition fire (i : nat) (now_id now_ts : Z) (random : number)
    (st : Session) : option Session :=
  match nth_error (timers st) i with
  | Some t =>
      Some (timeoutCallback now_id now_ts random (captured t)
              {| messages := messages st; isTyping := isTyping st;
                 timers := remove_nth i (timers st); mounted := mounted st |})
  | None => None
  end.

(** The view is destroyed. The page's only effect ([scrollToBottom] on
    [messages]) returns no cleanup, and nothing calls [clearTimeout]: the
    pending timers stay. *)
Definition unmount (st : Session) : Session :=
  {| messages := messages st; isTyping := isTyping st;
     timers := timers st; mounted := false |}.

(** The [disabled] prop of [<ChatInput onSendMessage={handleSendMessage}
    disabled={isTyping} />]. *)
Definition ChatInput_disabled (st : Session) : bool := isTyping st.

(* ================================================================= *)
(** ** Runs of the page *)

Inductive Event : Type :=
| Send (now_id now_ts : Z) (random : number) (content : string)
| TimerFires (i : nat) (now_id now_ts : Z) (random : number)
| Unmount.

Definition step (ev : Event) (st : Session) : option Session :=
  match ev with
  | Send now_id now_ts random content =>
      Some (handleSendMessage now_id now_ts random content st)
  | TimerFires i now_id now_ts random => fire i now_id now_ts random st
  | Unmount => Some (unmount st)
  end.

Fixpoint run (evs : list Event) (st : Session) : option Session :=
  match evs with
  | [] => Some st
  | ev :: evs' =>
      match step ev st with
      | Some st' => run evs' st'
      | None => None
      end
  end.

(** The [new Date()] value an event reads for the message it builds. *)
Definition date_reads (ev : Event) : list Z :=
  match ev with
  | Send _ now_ts _ _ => [now_ts]
  | TimerFires _ _ now_ts _ => [now_ts]
  | Unmount => []
  end.

Fixpoint nondecreasing (l : list Z) : Prop :=
  match l with
  | [] => True
  | x :: l' => match l' with
               | [] => True
               | y :: _ => x <= y /\ nondecreasing l'
               end
  end.

(** [messages[i].timestamp <= messages[i+1].timestamp] for all [i]. *)
Definition chronological (l : list Message) : Prop :=
  forall (i : nat) (a b : Message),
    nth_error l i = Some a -> nth_error l (S i) = Some b ->
    timestamp a <= timestamp b.

(* ================================================================= *)
(** ** Definitions used by the proofs *)

(** The state of [shr] after [n >= 1] one-bit shifts of the exact
    mantissa [m0]: the quotient, the round bit and the sticky bit. *)
Definition shr_inv (m0 : Z) (n : Z) (mrs : shr_record) : Prop :=
  0 <= shr_m mrs /\
  exists low, 0 <= low < 2 ^ (n - 1) /\
    m0 = shr_m mrs * 2 ^ n + (if shr_r mrs then 2 ^ (n - 1) else 0) + low /\
    shr_s mrs = negb (low =? 0).

(** [m1] is [m / 2^n] rounded to an integer with an error of at most one
    half: [|m1 * 2^n - m| <= 2^n / 2]. *)
Definition near (m n m1 : Z) : Prop :=
  0 <= m1 /\ (2 * m1 - 1) * 2 ^ n <= 2 * m <= (2 * m1 + 1) * 2 ^ n.

(** The non-negative number [M * 2^E]. *)
Definition SFfin (M E : Z) : number :=
  match M with
  | Z0 => S754_zero false
  | Zpos p => S754_finite false p E
  | Zneg _ => S754_nan
  end.

(** [M] and [E] are the mantissa and exponent of a binary64 value in
    canonical form (normal, subnormal or zero). *)
Definition canon (M E : Z) : Prop :=
  0 <= M < 2 ^ 53 /\ -1074 <= E <= 971 /\ (E = -1074 \/ 2 ^ 52 <= M).

(** The largest binary64 value below 1, [1 - 2^-53]. *)
Definition below_one : number := S754_finite false 9007199254740991 (-53).

(** The binary64 value [0.25]. *)
Definition one_quarter : number := S754_finite false 4503599627370496 (-54).

(* ================================================================= *)
(** ** Views: [ChatMessage] and [Card] *)

(** What a component returns: an element with its props and children, a
    text, or a value that React renders as nothing ([false],
    [undefined]). *)
#[warnings="-register-all"] Inductive VNode : Type :=
| VElement (tag : string) (props : list (string * string)) (children : list VNode)
| VText (text : string)
| VNothing.

(** [role === other]. *)
Definition role_eqb (a b : Role) : bool :=
  match a, b with
  | user, user => true
  | assistant, assistant => true
  | _, _ => false
  end.

(** [ChatMessage]; [toLocaleTimeString] stands for
    [d.toLocaleTimeString([], { hour: '2-digit', minute: '2-digit' })],
    which depends on the locale and time zone of the browser. *)
Definition ChatMessage (toLocaleTimeString : Z -> string) (message : Message) : VNode :=
  let isUser := role_eqb (role message) user in
  let isAlma := role_eqb (role message) assistant in
  VElement "div"
    [("className",
      ("flex items-start space-x-3 "
         ++ (if isUser then "justify-end" else "justify-start"))%string)]
    [ if isAlma then
        VElement "div"
          [("className",
            "w-8 h-8 bg-gradient-to-r from-purple-500 to-blue-500 rounded-full flex items-center justify-center text-white font-bold text-sm shrink-0")]
          [VText "A"]
      else VNothing;
      VElement "div"
        [("className",
          ("flex flex-col max-w-xs sm:max-w-md lg:max-w-lg "
             ++ (if isUser then "items-end" else "items-start"))%string)]
        [ VElement "div"
            [("className",
              ("rounded-2xl px-4 py-3 "
                 ++ (if isUser
                     then "bg-gradient-to-r from-blue-500 to-purple-600 text-white"
                     else "bg-gray-100 dark:bg-gray-700 text-gray-900 dark:text-gray-100"))%string)]
            [ VElement "p"
                [("className", "text-sm leading-relaxed whitespace-pre-wrap")]
                [VText (content message)] ];
          VElement "span"
            [("className", "text-xs text-gray-500 dark:text-gray-400 mt-1 px-2")]
            [VText (toLocaleTimeString (timestamp message))] ];
      if isUser then
        VElement "div"
          [("className",
            "w-8 h-8 bg-gradient-to-r from-green-400 to-blue-500 rounded-full flex items-center justify-center text-white font-bold text-sm shrink-0")]
          [VText "U"]
      else VNothing ].

(** [Card]; an optional prop that is left out is [None]. [imageUrl && x]
    is [undefined] for a missing [imageUrl], the empty string for an empty
    one, and [x] otherwise. *)
Definition Card (title description : string) (imageUrl className : option string)
    (children : list VNode) : VNode :=
  let className := match className with Some c => c | None => EmptyString end in
  VElement "div"
    [("className",
      ("bg-white dark:bg-gray-800 rounded-lg shadow-lg overflow-hidden " ++ className)%string)]
    [ match imageUrl with
      | None => VNothing
      | Some EmptyString => VText EmptyString
      | Some url =>
          VElement "div"
            [("className", "h-48 w-full overflow-hidden")]
            [ VElement "img"
                [("src", url); ("alt", title);
                 ("className", "w-full h-full object-cover transition-transform hover:scale-105")]
                [] ]
      end;
      VElement "div"
        [("className", "p-6")]
        ([ VElement "h3"
             [("className", "text-xl font-bold text-gray-900 dark:text-white mb-2")]
             [VText title];
           VElement "p"
             [("className", "text-gray-600 dark:text-gray-300 mb-4")]
             [VText description] ]
           ++ children) ].

(** The texts of a tree, in document order. *)
Fixpoint texts (n : VNode) : list string :=
  match n with
  | VElement _ _ children => flat_map texts children
  | VText t => [t]
  | VNothing => []
  end.

(** The elements with a given tag, in document order, each with its
    props. *)
Fixpoint elements (tag : string) (n : VNode) : list (list (string * string)) :=
  match n with
  | VElement t props children =>
      (if String.eqb t tag then [props] else []) ++ flat_map (elements tag) children
  | VText _ => []
  | VNothing => []
  end.

(* ================================================================= *)
(** ** Vocabulary for runs *)

Definition count_role (ro : Role) (l : list Message) : nat :=
  List.length (filter (fun m => role_eqb (role m) ro) l).

Definition is_send (ev : Event) : bool :=
  match ev with Send _ _ _ _ => true | _ => false end.

Definition is_fire (ev : Event) : bool :=
  match ev with TimerFires _ _ _ _ => true | _ => false end.

Definition sends (evs : list Event) : nat := List.length (filter is_send evs).

Definition fires (evs : list Event) : nat := List.length (filter is_fire evs).

(** The [Math.random()] of every send is in [[0,1)]. *)
Definition send_draws_in_range (evs : list Event) : bool :=
  forallb (fun ev => match ev with
                     | Send _ _ random _ => in_unit_interval random
                     | _ => true
                     end) evs.

(** Every send of the run is made while the page's [ChatInput] is
    enabled ([disabled = false]). *)
Fixpoint sends_while_enabled (evs : list Event) (st : Session) : bool :=
  match evs with
  | [] => true
  | ev :: evs' =>
      (if is_send ev then negb (ChatInput_disabled st) else true)
      && match step ev st with
         | Some st' => sends_while_enabled evs' st'
         | None => true
         end
  end.

(** The [Date.now()] values an event reads. *)
Definition now_reads (ev : Event) : list Z :=
  match ev with
  | Send now_id _ _ _ => [now_id]
  | TimerFires _ now_id _ _ => [now_id]
  | Unmount => []
  end.

(** Each value is at least 2 above the one before it. *)
Fixpoint spaced (l : list Z) : Prop :=
  match l with
  | [] => True
  | x :: l' => match l' with
               | [] => True
               | y :: _ => x + 2 <= y /\ spaced l'
               end
  end.

(** [b] is the message a gated conversation puts after [a]: a user
    message after an assistant message, and after a user message the reply
    generated from its content. *)
Definition follows (a b : Message) : Prop :=
  match role a with
  | assistant => role b = user
  | user => role b = assistant /\
            exists random, content b = generateAlmaResponse random (content a)
  end.

(** Every two neighbours of the list are related by [R]. *)
Fixpoint chain {A : Type} (R : A -> A -> Prop) (l : list A) : Prop :=
  match l with
  | [] => True
  | x :: l' => match l' with
               | [] => True
               | y :: _ => R x y /\ chain R l'
               end
  end.

(** The state of a conversation whose sends all go through the enabled
    input: the messages alternate and the last one is a user message
    exactly while [isTyping]; as long as the view is mounted, exactly the
    timer of that user message is pending while [isTyping], and none
    otherwise. *)
Definition in_turn (st : Session) : Prop :=
  chain follows (messages st) /\
  exists l m, messages st = l ++ [m] /\
    role m = (if isTyping st then user else assistant) /\
    (mounted st = true ->
     if isTyping st
     then exists d, timers st = [ {| delay := d; captured := content m |} ]
     else timers st = []).

(* ================================================================= *)
(** * The model on concrete inputs *)

Example num_1000_value : num 1000 = S754_finite false (1000 * 2 ^ 43) (-43).
Proof. reflexivity. Qed.

Example response_delay_at_zero : response_delay (num 0) = num 1000.
Proof. reflexivity. Qed.

Example response_delay_at_half :
  response_delay (S754_finite false 4503599627370496 (-53)) = num 2000.
Proof. reflexivity. Qed.

Example template_index_at_quarter :
  index_of_number (template_index one_quarter "hola") = Some 1%nat.
Proof. reflexivity. Qed.

Example template_index_at_below_one :
  index_of_number (template_index below_one "hola") = Some 4%nat.
Proof. reflexivity. Qed.

Example reply_at_quarter :
  generateAlmaResponse one_quarter "hola" =
  "Es una pregunta muy interesante. Basándome en mi conocimiento, puedo decirte que... ¿Te gustaría que profundice en algún aspecto específico?".
Proof. reflexivity. Qed.

Example reply_at_zero :
  generateAlmaResponse (num 0) "hola" =
  ("Entiendo tu consulta sobre " ++ dquote ++ "hola" ++ dquote
     ++ ". Como ALMA, puedo ayudarte a analizar este tema desde diferentes perspectivas."
     ++ " ¿Te gustaría que profundice en algún aspecto específico?")%string.
Proof. reflexivity. Qed.

Example reply_out_of_range :
  generateAlmaResponse (num 1) "hola" = ("undefined" ++ closing)%string.
Proof. reflexivity. Qed.

Example toString_time_value : toString 1730000000000 = "1730000000000".
Proof. reflexivity. Qed.

Example send_then_fire :
  run [Send 10 11 one_quarter "hola"; TimerFires 0 1500 1501 (num 0)] (initial 0) =
  Some {| messages :=
            [ {| id := "1"; content := greeting; role := assistant; timestamp := 0 |};
              {| id := "10"; content := "hola"; role := user; timestamp := 11 |};
              {| id := "1501"; content := generateAlmaResponse (num 0) "hola";
                 role := assistant; timestamp := 1501 |} ];
          isTyping := false; timers := []; mounted := true |}.
Proof. reflexivity. Qed.

Example send_unmount_fire :
  run [Send 10 11 one_quarter "hola"; Unmount; TimerFires 0 1500 1501 (num 0)] (initial 0) =
  Some {| messages :=
            [ {| id := "1"; content := greeting; role := assistant; timestamp := 0 |};
              {| id := "10"; content := "hola"; role := user; timestamp := 11 |} ];
          isTyping := true; timers := []; mounted := false |}.
Proof. reflexivity. Qed.

(* ================================================================= *)
(** * Binary64 rounding

    What the proofs need from [SFmul] and [SFadd]: the result of
    [binary_round_aux] on an exact mantissa [m] and exponent [e] is a
    canonical pair [(M, E')] whose value lies on the grid [2^E] of the
    target exponent [E] and differs from [m * 2^e] by at most half a grid
    step. Bounds by numbers on that grid follow by integer arithmetic. *)

(** ** Powers of two *)

Lemma pow2_split (b a : Z) : 0 <= a <= b -> 2 ^ b = 2 ^ (b - a) * 2 ^ a.
Proof. intros H. rewrite <- Z.pow_add_r by lia. f_equal; lia. Qed.

Lemma pow2_pos (a : Z) : 0 <= a -> 0 < 2 ^ a.
Proof. intros H. apply Z.pow_pos_nonneg; lia. Qed.

Lemma pow2_ge_2 (a : Z) : 1 <= a -> 2 <= 2 ^ a.
Proof.
  intros H. change 2 with (2 ^ 1) at 1. apply Z.pow_le_mono_r; lia.
Qed.

Lemma pow2_succ (a : Z) : 0 <= a -> 2 ^ (a + 1) = 2 * 2 ^ a.
Proof. intros H. apply Z.pow_succ_r; exact H. Qed.

Ltac pow2_pos_of a := pose proof (pow2_pos a ltac:(lia)).

Lemma fexp_eq (e : Z) : fexp prec emax e = Z.max (e - 53) (-1074).
Proof. reflexivity. Qed.

(** ** Number of binary digits *)

Lemma digits2_pos_bounds (m : positive) :
  2 ^ (Zpos (digits2_pos m) - 1) <= Zpos m < 2 ^ Zpos (digits2_pos m).
Proof.
  induction m as [p IH | p IH |]; cbn [digits2_pos].
  - rewrite Pos2Z.inj_succ, <- Z.add_1_r.
    replace (Zpos (digits2_pos p) + 1 - 1) with (Zpos (digits2_pos p) - 1 + 1) by lia.
    rewrite !pow2_succ by lia. lia.
  - rewrite Pos2Z.inj_succ, <- Z.add_1_r.
    replace (Zpos (digits2_pos p) + 1 - 1) with (Zpos (digits2_pos p) - 1 + 1) by lia.
    rewrite !pow2_succ by lia. lia.
  - cbn. lia.
Qed.

Lemma digits2_pos_le (p : positive) (k : Z) :
  0 <= k -> Zpos p < 2 ^ k -> Zpos (digits2_pos p) <= k.
Proof.
  intros Hk Hp. destruct (digits2_pos_bounds p) as [Hlo _].
  assert (H : 2 ^ (Zpos (digits2_pos p) - 1) < 2 ^ k) by lia.
  apply Z.pow_lt_mono_r_iff in H; lia.
Qed.

Lemma digits2_pos_ge (p : positive) (k : Z) :
  2 ^ k <= Zpos p -> k + 1 <= Zpos (digits2_pos p).
Proof.
  intros Hp. destruct (digits2_pos_bounds p) as [_ Hhi].
  assert (H : 2 ^ k < 2 ^ Zpos (digits2_pos p)) by lia.
  apply Z.pow_lt_mono_r_iff in H; lia.
Qed.

(** ** Shifting the mantissa right *)

Lemma iter_pos_nat {A : Type} (f : A -> A) (p : positive) (x : A) :
  iter_pos f p x = Nat.iter (Pos.to_nat p) f x.
Proof.
  revert x; induction p as [p IH | p IH |]; intro x; cbn [iter_pos].
  - rewrite !IH, Pos2Nat.inj_xI.
    replace (S (2 * Pos.to_nat p))%nat with (Pos.to_nat p + (Pos.to_nat p + 1))%nat by lia.
    rewrite !Nat.iter_add. reflexivity.
  - rewrite !IH, Pos2Nat.inj_xO.
    replace (2 * Pos.to_nat p)%nat with (Pos.to_nat p + Pos.to_nat p)%nat by lia.
    rewrite Nat.iter_add. reflexivity.
  - reflexivity.
Qed.

Lemma shr_1_first (m0 : Z) : 0 <= m0 ->
  shr_inv m0 1 (shr_1 (Build_shr_record m0 false false)).
Proof.
  intros H. unfold shr_inv.
  destruct m0 as [| [p|p|] | p]; cbn [shr_1 orb shr_m shr_r shr_s]; try lia;
    (split; [lia | exists 0; cbn; repeat split; lia]).
Qed.

Lemma shr_1_step (m0 n : Z) (mrs : shr_record) : 1 <= n ->
  shr_inv m0 n mrs -> shr_inv m0 (n + 1) (shr_1 mrs).
Proof.
  intros Hn [Hm (low & Hlow & Heq & Hs)].
  destruct mrs as [m r s]; cbn [shr_m shr_r shr_s] in *.
  assert (P2 : 2 ^ n = 2 * 2 ^ (n - 1)).
  { replace n with (n - 1 + 1) at 1 by lia. apply pow2_succ; lia. }
  pose proof (pow2_succ n ltac:(lia)) as P3.
  pow2_pos_of (n - 1).
  unfold shr_inv. replace (n + 1 - 1) with n by lia.
  assert (Hlow' : 0 <= (if r then 2 ^ (n - 1) else 0) + low < 2 ^ n) by (destruct r; lia).
  assert (Hs' : (r || s)%bool = negb ((if r then 2 ^ (n - 1) else 0) + low =? 0)).
  { rewrite Hs; destruct r; cbn [orb].
    - symmetry. apply negb_true_iff, Z.eqb_neq. lia.
    - rewrite Z.add_0_l; reflexivity. }
  destruct m as [| [p|p|] | p]; cbn [shr_1 shr_m shr_r shr_s]; try lia;
    (split; [lia | exists ((if r then 2 ^ (n - 1) else 0) + low);
     split; [exact Hlow' | split; [ | exact Hs']]]);
    rewrite Heq, P3; try rewrite Pos2Z.inj_xI; try rewrite Pos2Z.inj_xO; destruct r; lia.
Qed.

Lemma shr_iter_inv (m0 : Z) (k : nat) : 0 <= m0 ->
  shr_inv m0 (Z.of_nat (S k)) (Nat.iter (S k) shr_1 (Build_shr_record m0 false false)).
Proof.
  intros H. induction k as [| k IH].
  - cbn [Nat.iter nat_rect]. apply (shr_1_first m0 H).
  - replace (Z.of_nat (S (S k))) with (Z.of_nat (S k) + 1) by lia.
    change (Nat.iter (S (S k)) shr_1 ?x) with (shr_1 (Nat.iter (S k) shr_1 x)).
    apply shr_1_step; [lia | exact IH].
Qed.

Lemma shr_exact_spec (m e n : Z) : 0 <= m -> 0 < n ->
  snd (shr (Build_shr_record m false false) e n) = e + n /\
  shr_inv m n (fst (shr (Build_shr_record m false false) e n)).
Proof.
  intros Hm Hn. destruct n as [| p | p]; try lia.
  cbn [shr fst snd]. split; [reflexivity |].
  rewrite iter_pos_nat.
  destruct (Pos2Nat.is_succ p) as [k Hk]. rewrite Hk.
  replace (Zpos p) with (Z.of_nat (S k)) by (rewrite <- Hk; apply positive_nat_Z).
  apply shr_iter_inv; exact Hm.
Qed.

Lemma shr_nonpos (mrs : shr_record) (e n : Z) : n <= 0 -> shr mrs e n = (mrs, e).
Proof. destruct n; [reflexivity | lia | reflexivity]. Qed.

(** ** Rounding to nearest *)

Lemma round_nearest_even_near (m n : Z) (mrs : shr_record) : 1 <= n ->
  shr_inv m n mrs ->
  near m n (round_nearest_even (shr_m mrs) (loc_of_shr_record mrs)).
Proof.
  intros Hn [Hm (low & Hlow & Heq & Hs)].
  destruct mrs as [q r s]; cbn [shr_m shr_r shr_s] in *.
  assert (P2 : 2 ^ n = 2 * 2 ^ (n - 1)).
  { replace n with (n - 1 + 1) at 1 by lia. apply pow2_succ; lia. }
  pow2_pos_of (n - 1).
  unfold near.
  destruct r, s; cbn [loc_of_shr_record round_nearest_even];
    try (destruct (Z.even q));
    try (symmetry in Hs; apply negb_false_iff, Z.eqb_eq in Hs);
    (split; [lia | rewrite Heq, P2; nia]).
Qed.

(** The first [shr_fexp] of [binary_round_aux] brings the exponent to
    [fexp (digits m + e)]; rounding the shifted mantissa stays [near]. *)
Lemma first_shift (m : positive) (e : Z) :
  let E := fexp prec emax (Zpos (digits2_pos m) + e) in
  e <= E ->
  exists mrs, shr_fexp prec emax (Zpos m) e loc_Exact = (mrs, E) /\
    near (Zpos m) (E - e) (round_nearest_even (shr_m mrs) (loc_of_shr_record mrs)).
Proof.
  intros E HE. unfold shr_fexp. cbn [Zdigits2 shr_record_of_loc]. fold E.
  destruct (Z.eq_dec (E - e) 0) as [H0 | H0].
  - rewrite H0. cbn [shr]. eexists; split; [f_equal; lia |].
    cbn. unfold near. rewrite Z.pow_0_r. lia.
  - destruct (shr_exact_spec (Zpos m) e (E - e)) as [H1 H2]; try lia.
    exists (fst (shr (Build_shr_record (Zpos m) false false) e (E - e))). split.
    + rewrite (surjective_pairing (shr _ _ _)) at 1. rewrite H1. f_equal. lia.
    + apply round_nearest_even_near; [lia | exact H2].
Qed.

(** The second [shr_fexp] does nothing unless rounding carried the
    mantissa to [2^53], which it renormalises to [2^52]. *)
Lemma second_shift (m1 E : Z) : 0 <= m1 <= 2 ^ 53 -> -1074 <= E ->
  exists M E', shr_fexp prec emax m1 E loc_Exact = (Build_shr_record M false false, E') /\
    ((M = m1 /\ E' = E /\ m1 < 2 ^ 53) \/ (m1 = 2 ^ 53 /\ M = 2 ^ 52 /\ E' = E + 1)).
Proof.
  intros Hm HE. unfold shr_fexp. cbn [shr_record_of_loc].
  destruct (Z.eq_dec m1 (2 ^ 53)) as [Htop | Htop].
  - subst m1. exists (2 ^ 52), (E + 1). split; [| right; repeat split; reflexivity].
    change (Zdigits2 (2 ^ 53)) with 54. rewrite fexp_eq.
    replace (Z.max (54 + E - 53) (-1074) - E) with 1 by lia.
    reflexivity.
  - exists m1, E. split; [| left; repeat split; lia].
    apply shr_nonpos. rewrite fexp_eq.
    destruct m1 as [| p | p]; [cbn [Zdigits2]; lia | | lia].
    cbn [Zdigits2].
    assert (Hd : Zpos (digits2_pos p) <= 53) by (apply digits2_pos_le; lia).
    lia.
Qed.

Lemma binary_round_aux_spec (m : positive) (e : Z) :
  let E := fexp prec emax (Zpos (digits2_pos m) + e) in
  e <= E -> E < 971 ->
  exists M E',
    binary_round_aux prec emax false (Zpos m) e loc_Exact = SFfin M E' /\
    canon M E' /\
    (E' = E \/ (E' = E + 1 /\ M = 2 ^ 52)) /\
    near (Zpos m) (E - e) (M * 2 ^ (E' - E)).
Proof.
  intros E HeE Hmax.
  destruct (first_shift m e HeE) as (mrs & Hshr & Hnear). fold E in Hshr, Hnear.
  unfold binary_round_aux. rewrite Hshr.
  set (m1 := round_nearest_even (shr_m mrs) (loc_of_shr_record mrs)) in *.
  destruct (digits2_pos_bounds m) as [Dlo Dhi].
  set (d := Zpos (digits2_pos m)) in *.
  assert (HEmin : -1074 <= E) by (unfold E; rewrite fexp_eq; lia).
  pow2_pos_of (E - e).
  destruct Hnear as [Hm1 [Hn1 Hn2]].
  assert (Hup : Zpos m < 2 ^ 53 * 2 ^ (E - e)).
  { rewrite <- Z.pow_add_r by lia.
    eapply Z.lt_le_trans; [exact Dhi |].
    apply Z.pow_le_mono_r; [lia |]. unfold E; rewrite fexp_eq; fold d; lia. }
  assert (Hm1top : m1 <= 2 ^ 53) by nia.
  assert (Hnorm : E = -1074 \/ 2 ^ 52 <= m1).
  { destruct (Z.eq_dec E (-1074)) as [-> | HE]; [left; reflexivity | right].
    assert (HEd : E = d + e - 53) by (unfold E in *; rewrite fexp_eq in *; fold d in HE |- *; lia).
    assert (Hlo : 2 ^ 52 * 2 ^ (E - e) <= Zpos m).
    { rewrite <- Z.pow_add_r by lia.
      replace (52 + (E - e)) with (d - 1) by lia. exact Dlo. }
    nia. }
  destruct (second_shift m1 E) as (M & E' & Hshr2 & Hcase); [lia | lia |].
  rewrite Hshr2. cbn [shr_m].
  exists M, E'.
  assert (HM : 0 <= M < 2 ^ 53) by (destruct Hcase as [(-> & _ & ?) | (_ & -> & _)]; lia).
  assert (HE' : E <= E' <= 971) by (destruct Hcase as [(_ & -> & _) | (_ & _ & ->)]; lia).
  split; [| split; [| split]].
  - destruct M as [| p | p]; [reflexivity | | lia].
    cbn [SFfin]. replace (Z.leb E' (emax - prec)) with true; [reflexivity |].
    symmetry; apply Z.leb_le. change (emax - prec) with 971. lia.
  - unfold canon. split; [exact HM | split; [lia |]].
    destruct Hcase as [(-> & -> & _) | (_ & -> & _)]; [exact Hnorm | right; lia].
  - destruct Hcase as [(_ & -> & _) | (_ & -> & ->)]; [left | right; split]; reflexivity.
  - assert (HMm1 : M * 2 ^ (E' - E) = m1).
    { destruct Hcase as [(-> & -> & _) | (-> & -> & ->)].
      - rewrite Z.sub_diag, Z.pow_0_r; lia.
      - replace (E + 1 - E) with 1 by lia. reflexivity. }
    rewrite HMm1. unfold near; lia.
Qed.

(** ** Canonical pairs and comparisons *)

Lemma valid_binary_canon (s : bool) (m : positive) (e : Z) :
  valid_binary prec emax (S754_finite s m e) = true -> canon (Zpos m) e.
Proof.
  cbn [valid_binary]. unfold bounded, canonical_mantissa.
  intros H. apply andb_true_iff in H. destruct H as [H1 H2].
  apply Z.eqb_eq in H1. apply Z.leb_le in H2. change (emax - prec) with 971 in H2.
  rewrite fexp_eq in H1.
  destruct (digits2_pos_bounds m) as [Dlo Dhi].
  set (d := Zpos (digits2_pos m)) in *.
  assert (Hd : d <= 53) by lia.
  unfold canon. split; [| split; [lia |]].
  - split; [lia |]. eapply Z.lt_le_trans; [exact Dhi |].
    apply Z.pow_le_mono_r; lia.
  - destruct (Z.eq_dec e (-1074)); [left; assumption | right].
    replace 52 with (d - 1) by lia. exact Dlo.
Qed.

Lemma SFleb_SFfin (M E : Z) (mC : positive) (eC : Z) : 0 <= M ->
  (M = 0 \/ E < eC \/ (E = eC /\ M <= Zpos mC)) ->
  SFleb (SFfin M E) (S754_finite false mC eC) = true.
Proof.
  intros HM H. destruct M as [| p | p]; [reflexivity | | lia].
  unfold SFleb; cbn [SFfin SFcompare].
  destruct H as [H | [H | [H1 H2]]]; [lia | |].
  - apply Z.compare_lt_iff in H. rewrite H. reflexivity.
  - subst E. rewrite Z.compare_refl.
    change (Pos.compare_cont Eq p mC) with (Pos.compare p mC).
    destruct (Pos.compare_spec p mC); [reflexivity | reflexivity | lia].
Qed.

Lemma SFltb_SFfin (M E : Z) (mC : positive) (eC : Z) : 0 <= M ->
  (M = 0 \/ E < eC \/ (E = eC /\ M < Zpos mC)) ->
  SFltb (SFfin M E) (S754_finite false mC eC) = true.
Proof.
  intros HM H. destruct M as [| p | p]; [reflexivity | | lia].
  unfold SFltb; cbn [SFfin SFcompare].
  destruct H as [H | [H | [H1 H2]]]; [lia | |].
  - apply Z.compare_lt_iff in H. rewrite H. reflexivity.
  - subst E. rewrite Z.compare_refl.
    change (Pos.compare_cont Eq p mC) with (Pos.compare p mC).
    destruct (Pos.compare_spec p mC); [lia | reflexivity | lia].
Qed.

Lemma SFleb_const_SFfin (M E : Z) (mC : positive) (eC : Z) :
  (eC < E /\ 0 < M) \/ (E = eC /\ Zpos mC <= M) ->
  SFleb (S754_finite false mC eC) (SFfin M E) = true.
Proof.
  intros H. destruct M as [| p | p]; [lia | | lia].
  unfold SFleb; cbn [SFfin SFcompare].
  destruct H as [[H _] | [H1 H2]].
  - apply Z.compare_lt_iff in H. rewrite H. reflexivity.
  - subst E. rewrite Z.compare_refl.
    change (Pos.compare_cont Eq mC p) with (Pos.compare mC p).
    destruct (Pos.compare_spec mC p); [reflexivity | reflexivity | lia].
Qed.

Lemma SFltb_finite_inv (m : positive) (e : Z) (mC : positive) (eC : Z) :
  SFltb (S754_finite false m e) (S754_finite false mC eC) = true ->
  e < eC \/ (e = eC /\ Zpos m < Zpos mC).
Proof.
  unfold SFltb; cbn [SFcompare]. destruct (Z.compare_spec e eC) as [H | H | H].
  - subst. change (Pos.compare_cont Eq m mC) with (Pos.compare m mC).
    destruct (Pos.compare_spec m mC); intros; try discriminate; right; split; lia.
  - intros _. left; exact H.
  - discriminate.
Qed.

(** From an inequality between values, both scaled by [2^-L], to the
    order on (exponent, mantissa) that [SFcompare] reads, and back. *)
Lemma lex_le_of_val (M E mC eC L : Z) :
  canon M E -> 0 < mC < 2 ^ 53 -> -1074 <= eC -> L <= E -> L <= eC ->
  M * 2 ^ (E - L) <= mC * 2 ^ (eC - L) ->
  M = 0 \/ E < eC \/ (E = eC /\ M <= mC).
Proof.
  intros (HM & HE & Hn) HC HeC HL1 HL2 Hv.
  destruct (Z.eq_dec M 0) as [-> | HM0]; [left; reflexivity | right].
  pose proof (pow2_pos (eC - L) ltac:(lia)) as HX.
  destruct (Z.compare_spec E eC) as [Heq | Hlt | Hgt].
  - right. split; [exact Heq |]. subst E.
    apply Z.mul_le_mono_pos_r in Hv; assumption.
  - left; exact Hlt.
  - exfalso. destruct Hn as [Hn | Hn]; [lia |].
    rewrite (pow2_split (E - L) (eC - L)), Z.mul_assoc in Hv by lia.
    apply Z.mul_le_mono_pos_r in Hv; [| assumption].
    pose proof (pow2_ge_2 (E - L - (eC - L)) ltac:(lia)). nia.
Qed.

Lemma lex_lt_of_val (M E mC eC L : Z) :
  canon M E -> 0 < mC < 2 ^ 53 -> -1074 <= eC -> L <= E -> L <= eC ->
  M * 2 ^ (E - L) < mC * 2 ^ (eC - L) ->
  M = 0 \/ E < eC \/ (E = eC /\ M < mC).
Proof.
  intros (HM & HE & Hn) HC HeC HL1 HL2 Hv.
  destruct (Z.eq_dec M 0) as [-> | HM0]; [left; reflexivity | right].
  pose proof (pow2_pos (eC - L) ltac:(lia)) as HX.
  destruct (Z.compare_spec E eC) as [Heq | Hlt | Hgt].
  - right. split; [exact Heq |]. subst E.
    apply Z.mul_lt_mono_pos_r in Hv; assumption.
  - left; exact Hlt.
  - exfalso. destruct Hn as [Hn | Hn]; [lia |].
    rewrite (pow2_split (E - L) (eC - L)), Z.mul_assoc in Hv by lia.
    apply Z.mul_lt_mono_pos_r in Hv; [| assumption].
    pose proof (pow2_ge_2 (E - L - (eC - L)) ltac:(lia)). nia.
Qed.

Lemma lex_ge_of_val (M E mC eC L : Z) :
  canon M E -> 2 ^ 52 <= mC -> L <= E -> L <= eC ->
  mC * 2 ^ (eC - L) <= M * 2 ^ (E - L) ->
  (eC < E /\ 0 < M) \/ (E = eC /\ mC <= M).
Proof.
  intros (HM & HE & Hn) HC HL1 HL2 Hv.
  pose proof (pow2_pos (eC - L) ltac:(lia)) as HX.
  pose proof (pow2_pos (E - L) ltac:(lia)) as HY.
  assert (HMpos : 0 < M) by nia.
  destruct (Z.compare_spec E eC) as [Heq | Hlt | Hgt].
  - right. split; [exact Heq |]. subst E.
    apply Z.mul_le_mono_pos_r in Hv; assumption.
  - exfalso.
    rewrite (pow2_split (eC - L) (E - L)), Z.mul_assoc in Hv by lia.
    apply Z.mul_le_mono_pos_r in Hv; [| assumption].
    pose proof (pow2_ge_2 (eC - L - (E - L)) ltac:(lia)). nia.
  - left. split; [exact Hgt | exact HMpos].
Qed.

Lemma val_le_of_lex (M E mC eC L : Z) :
  0 <= M < 2 ^ 53 -> 2 ^ 52 <= mC -> L <= E -> L <= eC ->
  E < eC \/ (E = eC /\ M <= mC) ->
  M * 2 ^ (E - L) <= mC * 2 ^ (eC - L).
Proof.
  intros HM HC HL1 HL2 [Hlt | [-> Hle]].
  - rewrite (pow2_split (eC - L) (E - L)), Z.mul_assoc by lia.
    apply Z.mul_le_mono_nonneg_r; [pow2_pos_of (E - L); lia |].
    pose proof (pow2_ge_2 (eC - L - (E - L)) ltac:(lia)). nia.
  - apply Z.mul_le_mono_nonneg_r; [pow2_pos_of (eC - L); lia | exact Hle].
Qed.

(** ** Bounds on the grid

    [M1] is within half a step [P] of [m]; a bound [c * P] on [m] that
    lies on the grid carries over to [M1]. *)

Lemma grid_upper (M1 c P m : Z) :
  0 < P -> (2 * M1 - 1) * P <= 2 * m -> m <= c * P -> M1 <= c.
Proof.
  intros HP Hlo Hm.
  assert (H : (2 * M1 - 1) * P <= (2 * c) * P) by lia.
  apply Z.mul_le_mono_pos_r in H; [lia | exact HP].
Qed.

Lemma grid_upper_strict (M1 c P m : Z) :
  0 < P -> (2 * M1 - 1) * P <= 2 * m -> 2 * m + P < 2 * (c * P) -> M1 < c.
Proof.
  intros HP Hlo Hm.
  assert (H : (2 * M1 - 1) * P < (2 * c - 1) * P) by lia.
  apply Z.mul_lt_mono_pos_r in H; [lia | exact HP].
Qed.

(** Half a step is less than what [mr * mC] lacks to [Q * mC], in the
    normal and in the subnormal range. *)
Lemma gap_normal (P mr mC Q : Z) :
  2 ^ 52 * P <= mr * mC -> 0 < mr < 2 ^ 53 -> 0 < mC -> mr < Q ->
  2 * (mr * mC) + P < 2 * (mC * Q).
Proof.
  intros HP Hmr HmC HQ.
  assert (H1 : mr * mC < 2 ^ 53 * mC) by (apply Z.mul_lt_mono_pos_r; lia).
  assert (H2 : (mr + 1) * mC <= Q * mC) by (apply Z.mul_le_mono_nonneg_r; lia).
  lia.
Qed.

Lemma gap_subnormal (P mr mC Q Q' : Z) :
  Q = Q' * 2 ^ 53 -> 0 < P <= Q' -> 2 <= Q' -> 0 < mr < 2 ^ 53 -> 2 ^ 52 <= mC ->
  2 * (mr * mC) + P < 2 * (mC * Q).
Proof.
  intros -> HP HQ' Hmr HmC.
  assert (H1 : (mr + Q') * mC <= (Q' * 2 ^ 53) * mC) by (apply Z.mul_le_mono_nonneg_r; lia).
  assert (H2 : Q' * 1 <= Q' * mC) by (apply Z.mul_le_mono_nonneg_l; lia).
  lia.
Qed.

(** ** A draw times a positive constant

    [r = mr * 2^er] is a positive number below 1 and [C = mC * 2^eC] a
    normal positive constant. *)

Section MulByConstant.

Variables (mr : positive) (er : Z) (mC : positive) (eC : Z).
Hypothesis Hr : canon (Zpos mr) er.
Hypothesis Her : er <= -53.
Hypothesis HmC : 2 ^ 52 <= Zpos mC < 2 ^ 53.

Lemma SFmul_pos_spec :
  -1074 <= eC < 971 ->
  exists M E' E,
    SFmul prec emax (S754_finite false mr er) (S754_finite false mC eC) = SFfin M E' /\
    canon M E' /\
    (E' = E \/ (E' = E + 1 /\ M = 2 ^ 52)) /\
    er + eC <= E <= Z.max (er + eC + 53) (-1074) /\
    near (Zpos mr * Zpos mC) (E - (er + eC)) (M * 2 ^ (E' - E)) /\
    ((E = -1074 /\ er + eC < -1074) \/
     2 ^ 52 * 2 ^ (E - (er + eC)) <= Zpos mr * Zpos mC).
Proof.
  intros HeC. destruct Hr as (Hmr & Her' & Hnr).
  cbn [SFmul xorb].
  destruct (digits2_pos_bounds (mr * mC)) as [Dlo Dhi].
  assert (Hd1 : 53 <= Zpos (digits2_pos (mr * mC))).
  { apply (digits2_pos_ge (mr * mC) 52). rewrite Pos2Z.inj_mul. nia. }
  assert (Hd2 : Zpos (digits2_pos (mr * mC)) <= 106).
  { apply digits2_pos_le; [lia |]. rewrite Pos2Z.inj_mul.
    change (2 ^ 106) with (2 ^ 53 * 2 ^ 53). nia. }
  pose proof (binary_round_aux_spec (mr * mC) (er + eC)) as Hspec.
  cbv zeta in Hspec. rewrite fexp_eq in Hspec.
  set (d := Zpos (digits2_pos (mr * mC))) in *.
  set (E := Z.max (d + (er + eC) - 53) (-1074)) in *.
  destruct Hspec as (M & E' & Hres & Hcanon & HEE' & Hnear); [lia | lia |].
  exists M, E', E. rewrite <- Pos2Z.inj_mul.
  split; [exact Hres |]. split; [exact Hcanon |]. split; [exact HEE' |].
  split; [lia |]. split; [exact Hnear |].
  destruct (Z_lt_le_dec (d + (er + eC) - 53) (-1074)) as [H | H]; [left; lia | right].
  rewrite <- Z.pow_add_r by lia.
  replace (52 + (E - (er + eC))) with (d - 1) by lia. exact Dlo.
Qed.

(** [r * C <= C]. *)
Lemma SFmul_unit_le :
  -1074 <= eC < 971 ->
  exists M E,
    SFmul prec emax (S754_finite false mr er) (S754_finite false mC eC) = SFfin M E /\
    canon M E /\ (M = 0 \/ E < eC \/ (E = eC /\ M <= Zpos mC)).
Proof.
  intros HeC.
  destruct (SFmul_pos_spec HeC)
    as (M & E' & E & Hres & Hcanon & HEE' & HE & (HM1 & Hlo & Hhi) & _).
  exists M, E'. split; [exact Hres | split; [exact Hcanon |]].
  assert (HE1 : E <= E') by (clear - HEE'; lia).
  assert (HE2 : E <= eC) by (clear - HE Her HeC; lia).
  apply (lex_le_of_val M E' (Zpos mC) eC E);
    [exact Hcanon | clear - HmC; lia | lia | exact HE1 | exact HE2 |].
  apply (grid_upper _ _ (2 ^ (E - (er + eC))) (Zpos mr * Zpos mC));
    [apply pow2_pos; clear - HE; lia | exact Hlo |].
  rewrite <- Z.mul_assoc, <- Z.pow_add_r by (clear - HE HE2; lia).
  replace (eC - E + (E - (er + eC))) with (- er) by (clear; lia).
  rewrite (Z.mul_comm (Zpos mr)).
  apply Z.mul_le_mono_nonneg_l; [lia |].
  assert (HQ : 2 ^ 53 <= 2 ^ (- er)) by (apply Z.pow_le_mono_r; clear - Her; lia).
  destruct Hr as (Hmr & _). clear - Hmr HQ. lia.
Qed.

(** [r * C < C]: half a grid step is less than what [r * C] lacks to [C]. *)
Lemma SFmul_unit_lt :
  -1021 <= eC < 971 ->
  exists M E,
    SFmul prec emax (S754_finite false mr er) (S754_finite false mC eC) = SFfin M E /\
    canon M E /\ (M = 0 \/ E < eC \/ (E = eC /\ M < Zpos mC)).
Proof.
  intros HeC.
  destruct (SFmul_pos_spec ltac:(lia))
    as (M & E' & E & Hres & Hcanon & HEE' & HE & (HM1 & Hlo & Hhi) & Hreg).
  exists M, E'. split; [exact Hres | split; [exact Hcanon |]].
  assert (HE1 : E <= E') by (clear - HEE'; lia).
  assert (HE2 : E <= eC) by (clear - HE Her HeC; lia).
  apply (lex_lt_of_val M E' (Zpos mC) eC E);
    [exact Hcanon | clear - HmC; lia | lia | exact HE1 | exact HE2 |].
  pose proof (pow2_pos (E - (er + eC)) ltac:(clear - HE; lia)) as HP.
  apply (grid_upper_strict _ _ (2 ^ (E - (er + eC))) (Zpos mr * Zpos mC));
    [exact HP | exact Hlo |].
  rewrite <- Z.mul_assoc, <- Z.pow_add_r by (clear - HE HE2; lia).
  replace (eC - E + (E - (er + eC))) with (- er) by (clear; lia).
  assert (HQ : 2 ^ 53 <= 2 ^ (- er)) by (apply Z.pow_le_mono_r; clear - Her; lia).
  destruct Hr as (Hmr & _).
  destruct Hreg as [[Hsub Hsub'] | Hnorm].
  - apply (gap_subnormal _ _ _ _ (2 ^ (- er - 53)));
      [apply pow2_split; clear - Her; lia | | | clear - Hmr; lia | clear - HmC; lia].
    + split; [exact HP |]. apply Z.pow_le_mono_r; clear - Hsub Hsub' HeC; lia.
    + apply pow2_ge_2. clear - Hsub' HeC. lia.
  - apply gap_normal; [exact Hnorm | clear - Hmr; lia | lia | clear - Hmr HQ; lia].
Qed.

End MulByConstant.

(** For a draw other than the largest one, [r * 2000] is at most the
    second number below 2000, [2000 - 2^-41]. *)
Lemma SFmul_2000_not_top (mr : positive) (er : Z) :
  canon (Zpos mr) er -> er <= -53 ->
  er < -53 \/ Zpos mr <= 2 ^ 53 - 2 ->
  exists M E,
    SFmul prec emax (S754_finite false mr er)
      (S754_finite false 8796093022208000 (-42)) = SFfin M E /\
    canon M E /\ (M = 0 \/ E < -42 \/ (E = -42 /\ M <= 2000 * 2 ^ 42 - 2)).
Proof.
  intros Hr Her Hnot.
  destruct (SFmul_pos_spec mr er 8796093022208000 (-42) Hr Her)
    as (M & E' & E & Hres & Hcanon & HEE' & HE & (HM1 & Hlo & Hhi) & _); [lia | lia |].
  exists M, E'. split; [exact Hres | split; [exact Hcanon |]].
  destruct (Z.eq_dec M 0) as [HM0 | HM0]; [left; exact HM0 | right].
  destruct (Z_lt_le_dec E (-42)) as [Hlow | Hhigh].
  - (* below 1024: at most a carry to 2^52 at exponent -42 *)
    destruct HEE' as [-> | [-> ->]]; [left; exact Hlow |].
    destruct (Z.eq_dec E (-43)) as [-> | HE43]; [right; split; lia | left; lia].
  - (* exponent -42: the draw has exponent -53 *)
    assert (HE42 : E = -42) by lia.
    assert (Her53 : er = -53) by lia.
    subst E er.
    replace (-42 - (-53 + -42)) with 53 in * by lia.
    change (Zpos 8796093022208000) with (2000 * 2 ^ 42) in *.
    destruct HEE' as [-> | [-> ->]].
    + right. split; [reflexivity |].
      rewrite Z.sub_diag, Z.pow_0_r, Z.mul_1_r in Hlo. lia.
    + exfalso. replace (-42 + 1 - -42) with 1 in Hlo by lia. lia.
Qed.

(** ** Adding a number of at most 2000 to 1000 *)

Lemma shl_align_spec (mx : positive) (ex ez : Z) : ez <= ex ->
  Zpos (fst (shl_align mx ex ez)) = Zpos mx * 2 ^ (ex - ez).
Proof.
  intros H. unfold shl_align. destruct (ez - ex) as [| p | p] eqn:Hd; cbn [fst].
  - replace (ex - ez) with 0 by lia. rewrite Z.pow_0_r. lia.
  - lia.
  - replace (ex - ez) with (Zpos p) by lia.
    change (Pos.iter xO mx p) with (shift_pos p mx).
    rewrite shift_pos_correct. rewrite Z.mul_comm. reflexivity.
Qed.

Lemma shl_align_id (mx : positive) (ex ex' : Z) : ex <= ex' ->
  shl_align mx ex ex' = (mx, ex).
Proof.
  intros H. unfold shl_align. destruct (ex' - ex) as [| p | p] eqn:Hd; try reflexivity. lia.
Qed.

Lemma SFadd_pos_pos (mx : positive) (ex : Z) (my : positive) (ey : Z) :
  SFadd prec emax (S754_finite false mx ex) (S754_finite false my ey) =
  binary_round prec emax false
    (fst (shl_align mx ex (Z.min ex ey)) + fst (shl_align my ey (Z.min ex ey)))
    (Z.min ex ey).
Proof. reflexivity. Qed.

Lemma sum_magnitude (ms : positive) (ez Y : Z) :
  ez <= -43 ->
  Zpos ms = 1000 * 2 ^ 43 * 2 ^ (-43 - ez) + Y ->
  0 < Y <= 2000 * 2 ^ 42 * (2 * 2 ^ (-43 - ez)) ->
  10 - ez <= Zpos (digits2_pos ms) <= 12 - ez.
Proof.
  intros Hez Hms HY. pow2_pos_of (-43 - ez). split.
  - replace (10 - ez) with (9 - ez + 1) by lia. apply digits2_pos_ge.
    rewrite (pow2_split (9 - ez) (-43 - ez)) by lia.
    replace (9 - ez - (-43 - ez)) with 52 by lia. lia.
  - apply digits2_pos_le; [lia |].
    rewrite (pow2_split (12 - ez) (-43 - ez)) by lia.
    replace (12 - ez - (-43 - ez)) with 55 by lia. lia.
Qed.

(** The integer core of the sum: [ms] is the exact sum in units of
    [2^ez], [K * T] the grid step, [K' * K = 4]. *)
Lemma add_1000_arith (ms Y T K K' M1 d : Z) :
  0 < T -> 0 < Y <= (2000 * 2 ^ 42 - d) * (2 * T) ->
  ms = 1000 * 2 ^ 43 * T + Y ->
  K = 1 \/ K = 2 \/ K = 4 -> K' * K = 4 -> d = 0 \/ d = 2 ->
  (2 * M1 - 1) * (K * T) <= 2 * ms <= (2 * M1 + 1) * (K * T) ->
  1000 * 2 ^ 43 <= M1 * K /\ M1 * K <= (3000 * 2 ^ 41 - d / 2) * 4.
Proof.
  intros HT HY -> HK HK' Hd [Hlo Hhi].
  assert (Hd2 : d = d / 2 * 2) by (destruct Hd as [-> | ->]; reflexivity).
  set (h := d / 2) in *. clearbody h. subst d.
  assert (H1 : (2 * (1000 * 2 ^ 43)) * T <= (2 * (M1 * K) + K) * T) by lia.
  assert (H2 : (2 * (M1 * K) - K) * T <= (2 * ((3000 * 2 ^ 41 - h) * 4)) * T) by lia.
  apply Z.mul_le_mono_pos_r in H1; [| exact HT].
  apply Z.mul_le_mono_pos_r in H2; [| exact HT].
  clear - H1 H2 HK. destruct HK as [-> | [-> | ->]]; lia.
Qed.

(** For [y = my * 2^ey] with [0 < y <= 2000 - d * 2^-42], where [d] is 0
    or 2, the sum [1000 + y] rounds to a number between 1000 and
    [3000 - (d / 2) * 2^-41]. *)
Lemma SFadd_1000_bounds (my : positive) (ey d : Z) :
  canon (Zpos my) ey ->
  d = 0 \/ d = 2 ->
  ey < -42 \/ (ey = -42 /\ Zpos my <= 2000 * 2 ^ 42 - d) ->
  exists M E, SFadd prec emax (num 1000) (S754_finite false my ey) = SFfin M E /\
    canon M E /\
    ((-43 < E /\ 0 < M) \/ (E = -43 /\ 1000 * 2 ^ 43 <= M)) /\
    (M = 0 \/ E < -41 \/ (E = -41 /\ M <= 3000 * 2 ^ 41 - d / 2)).
Proof.
  intros Hy Hd Hle.
  change (num 1000) with (S754_finite false 8796093022208000 (-43)).
  rewrite SFadd_pos_pos.
  set (ez := Z.min (-43) ey).
  assert (Hez : ez <= -43 /\ ez <= ey) by (unfold ez; clear; lia).
  set (ms := (fst (shl_align 8796093022208000 (-43) ez) + fst (shl_align my ey ez))%positive).
  assert (Hms : Zpos ms = 1000 * 2 ^ 43 * 2 ^ (-43 - ez) + Zpos my * 2 ^ (ey - ez)).
  { unfold ms. rewrite Pos2Z.inj_add, !shl_align_spec by (clear - Hez; lia). reflexivity. }
  clearbody ms ez.
  pose proof (pow2_pos (-43 - ez) ltac:(clear - Hez; lia)) as HT.
  assert (HY : 0 < Zpos my * 2 ^ (ey - ez) <= (2000 * 2 ^ 42 - d) * (2 * 2 ^ (-43 - ez))).
  { split.
    - apply Z.mul_pos_pos; [reflexivity | apply pow2_pos; clear - Hez; lia].
    - rewrite <- pow2_succ by (clear - Hez; lia).
      replace (-43 - ez + 1) with (-42 - ez) by (clear; lia).
      destruct Hy as (Hmy & _).
      apply val_le_of_lex; [exact Hmy | | | | exact Hle]; clear - Hez Hd; lia. }
  assert (HY' : 0 < Zpos my * 2 ^ (ey - ez) <= 2000 * 2 ^ 42 * (2 * 2 ^ (-43 - ez))).
  { clear - HY HT Hd. destruct Hd as [-> | ->]; lia. }
  pose proof (sum_magnitude ms ez _ (proj1 Hez) Hms HY') as Hdg.
  unfold binary_round.
  pose proof (binary_round_aux_spec ms ez) as Hspec. cbv zeta in Hspec.
  rewrite fexp_eq in *.
  set (dg := Zpos (digits2_pos ms)) in *. clearbody dg.
  rewrite shl_align_id by (clear - Hdg Hez; lia).
  replace (Z.max (dg + ez - 53) (-1074)) with (dg + ez - 53) in * by (clear - Hdg Hez; lia).
  destruct Hspec as (M & E' & Hres & Hcanon & HEE' & (HM1 & Hnear));
    [clear - Hdg Hez; lia | clear - Hdg Hez; lia |].
  exists M, E'. split; [exact Hres | split; [exact Hcanon |]].
  set (E := dg + ez - 53) in *.
  assert (HE : E = -43 \/ E = -42 \/ E = -41) by (clear - Hdg; lia).
  clearbody E. clear Hres Hdg HY' Hle Hy.
  assert (Hn : 2 ^ (E - ez) = 2 ^ (E + 43) * 2 ^ (-43 - ez)).
  { rewrite <- Z.pow_add_r by (clear - HE Hez; lia). f_equal; clear; lia. }
  rewrite Hn in Hnear.
  assert (Hk : 2 ^ (E + 43) = 1 \/ 2 ^ (E + 43) = 2 \/ 2 ^ (E + 43) = 4).
  { clear - HE. destruct HE as [-> | [-> | ->]]; [left | right; left | right; right]; reflexivity. }
  assert (H41 : 2 ^ (-41 - E) * 2 ^ (E + 43) = 4).
  { rewrite <- Z.pow_add_r by (clear - HE; lia).
    replace (-41 - E + (E + 43)) with 2 by (clear; lia). reflexivity. }
  destruct (add_1000_arith _ _ _ _ _ _ d HT HY Hms Hk H41 Hd Hnear) as [Hlow Hupp].
  assert (HE1 : E <= E') by (clear - HEE'; lia).
  split.
  - apply (lex_ge_of_val M E' (1000 * 2 ^ 43) (-43) (-43));
      [exact Hcanon | clear; lia | clear - HE HE1; lia | clear; lia |].
    replace (-43 - -43) with 0 by (clear; lia). rewrite Z.pow_0_r, Z.mul_1_r.
    rewrite (pow2_split (E' - -43) (E + 43)) by (clear - HE HE1; lia).
    replace (E' - -43 - (E + 43)) with (E' - E) by (clear; lia).
    rewrite Z.mul_assoc. exact Hlow.
  - apply (lex_le_of_val M E' (3000 * 2 ^ 41 - d / 2) (-41) E);
      [exact Hcanon | clear - Hd; destruct Hd as [-> | ->]; cbn; lia | clear; lia
      | exact HE1 | clear - HE; lia |].
    apply (Z.mul_le_mono_pos_r _ _ (2 ^ (E + 43))); [clear - Hk; lia |].
    rewrite <- (Z.mul_assoc _ (2 ^ (-41 - E))), H41. exact Hupp.
Qed.

(** ** Draws in the unit interval, and [Math.floor] below 5 *)

Lemma in_unit_interval_cases (r : number) :
  in_unit_interval r = true ->
  (exists s, r = S754_zero s) \/
  (exists m e, r = S754_finite false m e /\ canon (Zpos m) e /\ e <= -53).
Proof.
  unfold in_unit_interval. intros H.
  apply andb_true_iff in H. destruct H as [H Hlt].
  apply andb_true_iff in H. destruct H as [Hvalid Hle].
  destruct r as [s | s | | s m e].
  - left. exists s. reflexivity.
  - destruct s; discriminate.
  - discriminate.
  - destruct s; [discriminate |]. right. exists m, e.
    pose proof (valid_binary_canon false m e Hvalid) as Hc.
    split; [reflexivity | split; [exact Hc |]].
    change (num 1) with (S754_finite false 4503599627370496 (-52)) in Hlt.
    apply SFltb_finite_inv in Hlt. destruct Hc as (_ & _ & Hn). lia.
Qed.

Lemma index_of_small (q : Z) : 0 <= q < 5 ->
  index_of_number (num q) = Some (Z.to_nat q).
Proof.
  intros H.
  assert (Hq : q = 0 \/ q = 1 \/ q = 2 \/ q = 3 \/ q = 4) by lia.
  destruct Hq as [-> | [-> | [-> | [-> | ->]]]]; reflexivity.
Qed.

Lemma floor_below_5 (M E : Z) :
  canon M E ->
  M = 0 \/ E < -50 \/ (E = -50 /\ M < 5 * 2 ^ 50) ->
  exists k, index_of_number (Math_floor (SFfin M E)) = Some k /\ (k < 5)%nat.
Proof.
  intros (HM & HE & Hn) Hlt.
  destruct M as [| p | p]; [exists 0%nat; split; [reflexivity | lia] | | lia].
  assert (HE0 : E <= -50) by lia.
  cbn [SFfin Math_floor cond_Zopp].
  replace (0 <=? E) with false by (symmetry; apply Z.leb_gt; lia).
  pose proof (pow2_pos (- E) ltac:(lia)) as HP.
  assert (Hq : 0 <= Zpos p / 2 ^ (- E) < 5).
  { split; [apply Z.div_pos; lia |].
    apply Z.div_lt_upper_bound; [exact HP |].
    destruct Hlt as [Hlt | [Hlt | [-> Hlt]]]; [lia | |].
    - assert (H51 : 2 ^ 51 <= 2 ^ (- E)) by (apply Z.pow_le_mono_r; lia).
      lia.
    - change (2 ^ (- -50)) with (2 ^ 50). lia. }
  fold (num (Zpos p / 2 ^ (- E))).
  rewrite index_of_small by exact Hq.
  eexists; split; [reflexivity | lia].
Qed.

(* ================================================================= *)
(** * The two arithmetic expressions of the page *)

Lemma num_5 : num 5 = S754_finite false 5629499534213120 (-50).
Proof. reflexivity. Qed.

Lemma num_2000 : num 2000 = S754_finite false 8796093022208000 (-42).
Proof. reflexivity. Qed.

(** [Math.floor(r * 5)] is one of the indices 0..4. *)
Lemma template_index_in_range (r : number) (s : string) :
  in_unit_interval r = true ->
  exists k, index_of_number (template_index r s) = Some k /\ (k < 5)%nat.
Proof.
  intros Hr. unfold template_index.
  change (num (Z.of_nat (List.length (responses s)))) with (num 5).
  rewrite num_5.
  destruct (in_unit_interval_cases r Hr) as [[sg ->] | (m & e & -> & Hc & He)].
  - exists 0%nat. split; [reflexivity | lia].
  - destruct (SFmul_unit_lt m e 5629499534213120 (-50) Hc He) as (M & E & -> & HcM & Hlt);
      [lia | lia |].
    apply floor_below_5; [exact HcM |].
    change (Zpos 5629499534213120) with (5 * 2 ^ 50) in Hlt. exact Hlt.
Qed.

(** [1000 <= 1000 + r * 2000 <= 3000] in binary64. *)
Lemma response_delay_bounds (r : number) :
  in_unit_interval r = true ->
  SFleb (num 1000) (response_delay r) = true /\
  SFleb (response_delay r) (num 3000) = true.
Proof.
  intros Hr. unfold response_delay. rewrite num_2000.
  destruct (in_unit_interval_cases r Hr) as [[sg ->] | (m & e & -> & Hc & He)].
  - destruct sg; split; reflexivity.
  - destruct (SFmul_unit_le m e 8796093022208000 (-42) Hc He) as (M & E & -> & HcM & Hle);
      [lia | lia |].
    destruct M as [| p | p]; [split; reflexivity | | destruct HcM; lia].
    cbn [SFfin].
    destruct (SFadd_1000_bounds p E 0 HcM) as (M' & E' & -> & HcM' & Hlo & Hhi);
      [left; reflexivity | |].
    { change (Zpos 8796093022208000) with (2000 * 2 ^ 42) in Hle. lia. }
    split.
    + change (num 1000) with (S754_finite false 8796093022208000 (-43)).
      apply SFleb_const_SFfin.
      change (Zpos 8796093022208000) with (1000 * 2 ^ 43). exact Hlo.
    + change (num 3000) with (S754_finite false 6597069766656000 (-41)).
      apply SFleb_SFfin; [destruct HcM'; lia |].
      change (Zpos 6597069766656000) with (3000 * 2 ^ 41).
      change (0 / 2) with 0 in Hhi. lia.
Qed.

(** [1000 + r * 2000 < 3000] for every draw but the largest. *)
Lemma response_delay_below_3000 (r : number) :
  in_unit_interval r = true -> r <> below_one ->
  SFltb (response_delay r) (num 3000) = true.
Proof.
  intros Hr Hne. unfold response_delay. rewrite num_2000.
  destruct (in_unit_interval_cases r Hr) as [[sg ->] | (m & e & -> & Hc & He)].
  - destruct sg; reflexivity.
  - assert (Hnot : e < -53 \/ Zpos m <= 2 ^ 53 - 2).
    { destruct (Z.eq_dec e (-53)) as [-> | Hne']; [right | left; lia].
      destruct (Z.eq_dec (Zpos m) (2 ^ 53 - 1)) as [Heq | Hneq].
      - exfalso. apply Hne. unfold below_one. f_equal.
        change (2 ^ 53 - 1) with (Zpos 9007199254740991) in Heq. congruence.
      - destruct Hc as (Hm & _). lia. }
    destruct (SFmul_2000_not_top m e Hc He Hnot) as (M & E & -> & HcM & Hle).
    destruct M as [| p | p]; [reflexivity | | destruct HcM; lia].
    cbn [SFfin].
    destruct (SFadd_1000_bounds p E 2 HcM) as (M' & E' & -> & HcM' & _ & Hhi);
      [right; reflexivity | lia |].
    change (num 3000) with (S754_finite false 6597069766656000 (-41)).
    apply SFltb_SFfin; [destruct HcM'; lia |].
    change (Zpos 6597069766656000) with (3000 * 2 ^ 41).
    change (2 / 2) with 1 in Hhi. lia.
Qed.

(* ================================================================= *)
(** * Strings *)

Lemma startsWith_append (p s : string) : startsWith (p ++ s) p = true.
Proof.
  induction p as [| a p IH]; [reflexivity |].
  cbn [append startsWith]. rewrite Ascii.eqb_refl. exact IH.
Qed.

Lemma startsWith_inv (p s : string) :
  startsWith s p = true -> exists post, s = (p ++ post)%string.
Proof.
  revert s; induction p as [| a p IH]; intros s H.
  - exists s. reflexivity.
  - destruct s as [| b s]; [discriminate |].
    cbn [startsWith] in H. apply andb_true_iff in H. destruct H as [Hab H].
    apply Ascii.eqb_eq in Hab. subst b.
    destruct (IH s H) as [post ->]. exists post. reflexivity.
Qed.

Lemma append_assoc (a b c : string) : ((a ++ b) ++ c = a ++ (b ++ c))%string.
Proof. induction a as [| x a IH]; [reflexivity | cbn [append]; rewrite IH; reflexivity]. Qed.

Lemma includes_iff (s sub : string) :
  includes s sub = true <-> substring_of sub s.
Proof.
  split.
  - induction s as [| a s IH]; cbn [includes]; intros H;
      apply orb_true_iff in H; destruct H as [H | H].
    + apply startsWith_inv in H. destruct H as [post ->]. exists EmptyString, post. reflexivity.
    + discriminate.
    + apply startsWith_inv in H. destruct H as [post ->]. exists EmptyString, post. reflexivity.
    + destruct (IH H) as (pre & post & ->). exists (String a pre), post. reflexivity.
  - intros (pre & post & ->). induction pre as [| a pre IH].
    + cbn [append]. destruct (sub ++ post)%string eqn:E; cbn [includes]; rewrite <- E;
        rewrite startsWith_append; reflexivity.
    + cbn [append includes]. rewrite IH. apply orb_true_r.
Qed.

Lemma substring_of_middle (pre sub post : string) :
  substring_of sub (pre ++ sub ++ post).
Proof. exists pre, post. reflexivity. Qed.

(* ================================================================= *)
(** * The response generator *)

Lemma generate_at_index (r : number) (s : string) (k : nat) :
  index_of_number (template_index r s) = Some k ->
  generateAlmaResponse r s = (interpolate (nth_error (responses s) k) ++ closing)%string.
Proof.
  intros H. unfold generateAlmaResponse, array_get. rewrite H. reflexivity.
Qed.

Lemma template_index_input (r : number) (s s' : string) :
  template_index r s = template_index r s'.
Proof. reflexivity. Qed.

(* ================================================================= *)
(** * Lists of messages and timers *)

Lemma nth_error_snoc {A : Type} (l : list A) (x : A) :
  nth_error (l ++ [x]) (List.length l) = Some x.
Proof. induction l as [| a l IH]; [reflexivity | exact IH]. Qed.

Lemma remove_nth_snoc {A : Type} (l : list A) (x : A) :
  remove_nth (List.length l) (l ++ [x]) = l.
Proof.
  induction l as [| a l IH]; [reflexivity |].
  cbn [List.length app remove_nth]. rewrite IH. reflexivity.
Qed.

Lemma nth_error_prefix {A : Type} (l l' : list A) (i : nat) (a : A) :
  nth_error l i = Some a -> nth_error (l ++ l') i = Some a.
Proof.
  intros H. rewrite nth_error_app1; [exact H |].
  apply nth_error_Some. congruence.
Qed.

Lemma nondecreasing_tail (x : Z) (l : list Z) :
  nondecreasing (x :: l) -> nondecreasing l.
Proof. destruct l as [| y l]; cbn; [trivial | intros [_ H]; exact H]. Qed.

Lemma nondecreasing_snoc (l : list Z) (y : Z) :
  nondecreasing l -> Forall (fun x => x <= y) l -> nondecreasing (l ++ [y]).
Proof.
  induction l as [| x l IH]; intros Hs Hb; [exact I |].
  inversion Hb as [| x' l' Hx Hl]; subst.
  destruct l as [| x2 l].
  - cbn. split; [exact Hx | exact I].
  - destruct Hs as [H12 Hs]. split; [exact H12 |]. apply IH; assumption.
Qed.

Lemma nondecreasing_nth (l : list Z) (i : nat) (a b : Z) :
  nondecreasing l -> nth_error l i = Some a -> nth_error l (S i) = Some b -> a <= b.
Proof.
  revert i; induction l as [| x l IH]; intros i Hs Ha Hb; [destruct i; discriminate |].
  destruct i as [| i].
  - destruct l as [| y l]; [discriminate |].
    cbn in Ha, Hb. injection Ha as ->. injection Hb as ->. destruct Hs as [H _]; exact H.
  - apply (IH i); [exact (nondecreasing_tail x l Hs) | exact Ha | exact Hb].
Qed.

(* ================================================================= *)
(** * The handlers *)

(** What [handleSendMessage] does to each field: the two setters take
    effect on a mounted view only, the timer is registered in any case. *)
Lemma handleSendMessage_inv (now_id now_ts : Z) (random : number)
    (text : string) (st : Session) :
  let st' := handleSendMessage now_id now_ts random text st in
  messages st' =
    (if mounted st
     then messages st ++ [ {| id := toString now_id; content := text; role := user;
                              timestamp := now_ts |} ]
     else messages st) /\
  isTyping st' = (if mounted st then true else isTyping st) /\
  timers st' = timers st ++ [ {| delay := response_delay random; captured := text |} ] /\
  mounted st' = mounted st.
Proof. destruct st as [ms ty tm []]; repeat split. Qed.

Lemma fire_inv (i : nat) (now_id now_ts : Z) (random : number) (st st' : Session) :
  fire i now_id now_ts random st = Some st' ->
  exists t, nth_error (timers st) i = Some t /\
    messages st' =
      (if mounted st
       then messages st ++
              [ {| id := toString (now_id + 1);
                   content := generateAlmaResponse random (captured t);
                   role := assistant; timestamp := now_ts |} ]
       else messages st) /\
    isTyping st' = (if mounted st then false else isTyping st) /\
    timers st' = remove_nth i (timers st) /\
    mounted st' = mounted st.
Proof.
  unfold fire. destruct (nth_error (timers st) i) as [t |]; [| discriminate].
  intros H. injection H as <-. exists t.
  destruct st as [ms ty tm []]; repeat split.
Qed.

(** What a step does to the message list: on a mounted view [Send] and
    [TimerFires] append one message stamped with the event's [new Date()];
    [Unmount], and every step on a destroyed view, leave the list as it
    is. *)
Lemma step_messages (ev : Event) (st st' : Session) :
  step ev st = Some st' ->
  match ev with
  | Send _ now_ts _ text =>
      if mounted st
      then exists m, messages st' = messages st ++ [m] /\ timestamp m = now_ts /\
                     content m = text /\ role m = user
      else messages st' = messages st
  | TimerFires _ _ now_ts _ =>
      if mounted st
      then exists m, messages st' = messages st ++ [m] /\ timestamp m = now_ts /\
                     role m = assistant
      else messages st' = messages st
  | Unmount => messages st' = messages st
  end.
Proof.
  destruct ev as [now_id now_ts random text | i now_id now_ts random |]; cbn [step]; intros H.
  - injection H as <-.
    destruct (handleSendMessage_inv now_id now_ts random text st) as (Hm & _).
    destruct (mounted st); [| exact Hm].
    eexists. split; [exact Hm |]. repeat split.
  - apply fire_inv in H. destruct H as (t & _ & Hm & _).
    destruct (mounted st); [| exact Hm].
    eexists. split; [exact Hm |]. split; reflexivity.
  - injection H as <-. reflexivity.
Qed.

Lemma step_mounted (ev : Event) (st st' : Session) :
  step ev st = Some st' -> mounted st = false -> mounted st' = false.
Proof.
  destruct ev as [now_id now_ts random text | i now_id now_ts random |]; cbn [step]; intros H Hm.
  - injection H as <-.
    destruct (handleSendMessage_inv now_id now_ts random text st) as (_ & _ & _ & ->).
    exact Hm.
  - apply fire_inv in H. destruct H as (t & _ & _ & _ & _ & ->). exact Hm.
  - injection H as <-. reflexivity.
Qed.

Lemma step_isTyping_unmounted (ev : Event) (st st' : Session) :
  step ev st = Some st' -> mounted st = false -> isTyping st' = isTyping st.
Proof.
  destruct ev as [now_id now_ts random text | i now_id now_ts random |]; cbn [step]; intros H Hm.
  - injection H as <-.
    destruct (handleSendMessage_inv now_id now_ts random text st) as (_ & -> & _).
    rewrite Hm. reflexivity.
  - apply fire_inv in H. destruct H as (t & _ & _ & -> & _). rewrite Hm. reflexivity.
  - injection H as <-. reflexivity.
Qed.

(** Once the view is destroyed, no run of sends and timer callbacks
    changes [messages] or [isTyping]. *)
Lemma run_unmounted (evs : list Event) (st st' : Session) :
  mounted st = false -> run evs st = Some st' ->
  messages st' = messages st /\ isTyping st' = isTyping st /\ mounted st' = false.
Proof.
  revert st; induction evs as [| ev evs IH]; intros st Hm Hrun.
  - injection Hrun as <-. repeat split. exact Hm.
  - cbn [run] in Hrun. destruct (step ev st) as [st1 |] eqn:Hstep; [| discriminate].
    destruct (IH st1 (step_mounted ev st st1 Hstep Hm) Hrun) as (H1 & H2 & H3).
    rewrite H1, H2. split; [| split; [| exact H3]].
    + pose proof (step_messages ev st st1 Hstep) as Hs. rewrite Hm in Hs.
      destruct ev; exact Hs.
    + exact (step_isTyping_unmounted ev st st1 Hstep Hm).
Qed.

(** The invariant behind the chronological order: the time stamps are
    non-decreasing and none is later than the last [new Date()] read. *)
Lemma run_chronological (evs : list Event) (st st' : Session) (c : Z) :
  nondecreasing (map timestamp (messages st)) ->
  Forall (fun t => t <= c) (map timestamp (messages st)) ->
  nondecreasing (c :: flat_map date_reads evs) ->
  run evs st = Some st' ->
  nondecreasing (map timestamp (messages st')).
Proof.
  revert st c; induction evs as [| ev evs IH]; intros st c Hs Hb Hc Hrun.
  - injection Hrun as <-. exact Hs.
  - cbn [run] in Hrun. destruct (step ev st) as [st1 |] eqn:Hstep; [| discriminate].
    pose proof (step_messages ev st st1 Hstep) as Hm.
    assert (Hlater : forall now_ts, c <= now_ts ->
              Forall (fun t => t <= now_ts) (map timestamp (messages st))).
    { intros now_ts Hle. eapply Forall_impl; [| exact Hb]. cbn; intros; lia. }
    assert (Hsnoc : forall m, c <= timestamp m ->
              messages st1 = messages st ++ [m] ->
              nondecreasing (map timestamp (messages st1)) /\
              Forall (fun t => t <= timestamp m) (map timestamp (messages st1))).
    { intros m Hle ->. rewrite map_app. cbn [map]. split.
      - apply nondecreasing_snoc; [exact Hs | exact (Hlater _ Hle)].
      - apply Forall_app. split; [exact (Hlater _ Hle) |].
        constructor; [lia | constructor]. }
    destruct ev as [now_id now_ts random text | i now_id now_ts random |];
      cbn [flat_map date_reads app] in Hc.
    + destruct Hc as (H1 & Hc).
      apply (IH st1 now_ts); [| | exact Hc | exact Hrun];
        destruct (mounted st).
      * destruct Hm as (m & Hm & <- & _). exact (proj1 (Hsnoc m H1 Hm)).
      * rewrite Hm. exact Hs.
      * destruct Hm as (m & Hm & <- & _). exact (proj2 (Hsnoc m H1 Hm)).
      * rewrite Hm. exact (Hlater _ H1).
    + destruct Hc as (H1 & Hc).
      apply (IH st1 now_ts); [| | exact Hc | exact Hrun];
        destruct (mounted st).
      * destruct Hm as (m & Hm & <- & _). exact (proj1 (Hsnoc m H1 Hm)).
      * rewrite Hm. exact Hs.
      * destruct Hm as (m & Hm & <- & _). exact (proj2 (Hsnoc m H1 Hm)).
      * rewrite Hm. exact (Hlater _ H1).
    + apply (IH st1 c); [rewrite Hm; exact Hs | rewrite Hm; exact Hb | exact Hc | exact Hrun].
Qed.

(* ================================================================= *)
(** * Properties of the specification *)

(** C1. From the idle state ([isTyping = false]) of a live view,
    [handleSendMessage s] appends exactly one user message whose content is
    [s], sets [isTyping] and registers one timer; when that timer fires,
    its callback appends exactly one assistant message and clears
    [isTyping]. [isTyping] is false before, true between the two appends
    and false after. On a destroyed view the timer is registered and fires
    all the same, and the setters change nothing. *)
Theorem C1_submit_then_response (s : string) (st : Session)
    (t1 t2 t3 t4 : Z) (r r' : number) :
  isTyping st = false ->
  let st1 := handleSendMessage t1 t2 r s st in
  (if mounted st
   then (exists m, messages st1 = messages st ++ [m] /\ content m = s /\ role m = user) /\
        isTyping st1 = true
   else messages st1 = messages st /\ isTyping st1 = false) /\
  timers st1 = timers st ++ [ {| delay := response_delay r; captured := s |} ] /\
  exists st2,
    fire (List.length (timers st)) t3 t4 r' st1 = Some st2 /\
    (if mounted st
     then exists m', messages st2 = messages st1 ++ [m'] /\
                     role m' = assistant /\ content m' = generateAlmaResponse r' s
     else messages st2 = messages st1) /\
    isTyping st2 = false /\ timers st2 = timers st.
Proof.
  intros Hidle st1.
  destruct (handleSendMessage_inv t1 t2 r s st) as (Hm1 & Hty1 & Htm1 & Hmo1).
  fold st1 in Hm1, Hty1, Htm1, Hmo1.
  assert (Hfire : exists st2, fire (List.length (timers st)) t3 t4 r' st1 = Some st2).
  { unfold fire. rewrite Htm1, nth_error_snoc. eexists; reflexivity. }
  destruct Hfire as [st2 Hfire].
  destruct (fire_inv _ _ _ _ _ _ Hfire) as (t & Ht & Hm2 & Hty2 & Htm2 & _).
  rewrite Htm1, nth_error_snoc in Ht. injection Ht as <-.
  rewrite Htm1, remove_nth_snoc in Htm2. rewrite Hmo1 in Hm2, Hty2.
  split; [| split; [exact Htm1 |]].
  - destruct (mounted st); [| rewrite Hty1, Hidle; split; [exact Hm1 | reflexivity]].
    split; [| exact Hty1]. eexists. split; [exact Hm1 | split; reflexivity].
  - exists st2. split; [exact Hfire |]. split; [| split; [| exact Htm2]].
    + destruct (mounted st); [| exact Hm2].
      eexists. split; [exact Hm2 | split; reflexivity].
    + destruct (mounted st); [exact Hty2 |]. rewrite Hty2, Hty1. exact Hidle.
Qed.

Lemma C1_submit_then_response_witness :
  isTyping (initial 0) = false /\
  let st1 := handleSendMessage 1 1 one_quarter "hola" (initial 0) in
  ((exists m, messages st1 = messages (initial 0) ++ [m] /\ content m = "hola" /\ role m = user) /\
   isTyping st1 = true) /\
  timers st1 = timers (initial 0) ++ [ {| delay := response_delay one_quarter; captured := "hola" |} ] /\
  exists st2,
    fire (List.length (timers (initial 0))) 1500 1500 one_quarter st1 = Some st2 /\
    (exists m', messages st2 = messages st1 ++ [m'] /\
                role m' = assistant /\ content m' = generateAlmaResponse one_quarter "hola") /\
    isTyping st2 = false /\ timers st2 = timers (initial 0).
Proof.
  split; [reflexivity |].
  exact (C1_submit_then_response "hola" (initial 0) 1 1 1500 1500 one_quarter one_quarter
           eq_refl).
Defined.

(** C2, as claimed, fails: [handleSendMessage] has no guard on [isTyping],
    so a second call made while the first response is pending changes
    [messages]. *)
Lemma C2_submit_while_typing_counterexample :
  let st1 := handleSendMessage 1 1 one_quarter "hola" (initial 0) in
  isTyping st1 = true /\
  messages (handleSendMessage 2 2 one_quarter "otra" st1) <> messages st1.
Proof.
  cbv zeta. split; [reflexivity |]. intros H.
  apply (f_equal (@List.length Message)) in H. cbn in H. discriminate.
Qed.

(** C2, amended. [handleSendMessage] rejects nothing: called while
    [isTyping] is true it leaves the messages already in the list as they
    are and appends one user message with the given content after them,
    keeps [isTyping] true and registers one more timer. What keeps such a
    call from being made is the page's [ChatInput], rendered with
    [disabled] true in that state. (On a destroyed view the message is not
    appended; the timer is registered all the same.) *)
Theorem C2_submit_while_typing (s : string) (st : Session)
    (t1 t2 : Z) (r : number) :
  isTyping st = true ->
  ChatInput_disabled st = true /\
  (if mounted st
   then exists m, messages (handleSendMessage t1 t2 r s st) = messages st ++ [m] /\
                  content m = s /\ role m = user
   else messages (handleSendMessage t1 t2 r s st) = messages st) /\
  isTyping (handleSendMessage t1 t2 r s st) = true /\
  List.length (timers (handleSendMessage t1 t2 r s st)) = S (List.length (timers st)).
Proof.
  intros Ht.
  destruct (handleSendMessage_inv t1 t2 r s st) as (Hm & Hty & Htm & _).
  cbv zeta in Hm, Hty, Htm.
  split; [exact Ht | split; [| split]].
  - destruct (mounted st); [| exact Hm].
    eexists. split; [exact Hm | split; reflexivity].
  - rewrite Hty. destruct (mounted st); [reflexivity | exact Ht].
  - rewrite Htm, length_app. cbn. lia.
Qed.

Lemma C2_submit_while_typing_witness :
  let st := handleSendMessage 1 1 one_quarter "hola" (initial 0) in
  isTyping st = true /\
  (ChatInput_disabled st = true /\
   (exists m, messages (handleSendMessage 2 2 one_quarter "otra" st) = messages st ++ [m] /\
              content m = "otra" /\ role m = user) /\
   isTyping (handleSendMessage 2 2 one_quarter "otra" st) = true /\
   List.length (timers (handleSendMessage 2 2 one_quarter "otra" st))
     = S (List.length (timers st))).
Proof.
  cbv zeta. split; [reflexivity |].
  exact (C2_submit_while_typing "otra"
           (handleSendMessage 1 1 one_quarter "hola" (initial 0)) 2 2 one_quarter eq_refl).
Defined.

(** C3, as claimed, fails: for the draw [0.25] the index is 1, and the
    second template has no slot for the input; the reply to ["hola"] does
    not contain ["hola"]. *)
Lemma C3_reply_contains_input_counterexample :
  in_unit_interval one_quarter = true /\
  index_of_number (template_index one_quarter "hola") = Some 1%nat /\
  ~ substring_of "hola" (generateAlmaResponse one_quarter "hola").
Proof.
  split; [reflexivity | split; [reflexivity |]].
  intros H. apply includes_iff in H. vm_compute in H. discriminate.
Qed.

(** C3, amended. Only the first and the third template interpolate the
    input: when the index [Math.floor(r * 5)] is 0 or 2 the reply contains
    [s]; when it is 1, 3 or 4 the reply is a fixed string, the same for
    every input. *)
Theorem C3_reply_contains_input (r : number) (s : string) (k : nat) :
  index_of_number (template_index r s) = Some k ->
  (k = 0%nat \/ k = 2%nat -> substring_of s (generateAlmaResponse r s)) /\
  (k = 1%nat \/ k = 3%nat \/ k = 4%nat ->
   forall s', generateAlmaResponse r s' = generateAlmaResponse r s).
Proof.
  intros Hk. split.
  - intros Hk02. rewrite (generate_at_index r s k Hk).
    destruct Hk02 as [-> | ->]; cbn [nth_error responses interpolate].
    + rewrite !append_assoc.
      apply (substring_of_middle ("Entiendo tu consulta sobre " ++ dquote)).
    + rewrite !append_assoc.
      apply (substring_of_middle
               ("Me parece un tema fascinante. Permíteme compartir contigo algunos insights sobre "
                  ++ dquote)).
  - intros Hk134 s'.
    rewrite (generate_at_index r s k Hk).
    rewrite (generate_at_index r s' k) by (rewrite (template_index_input r s' s); exact Hk).
    destruct Hk134 as [-> | [-> | ->]]; reflexivity.
Qed.

Lemma C3_reply_contains_input_witness :
  index_of_number (template_index (num 0) "hola") = Some 0%nat /\
  ((0%nat = 0%nat \/ 0%nat = 2%nat ->
    substring_of "hola" (generateAlmaResponse (num 0) "hola")) /\
   (0%nat = 1%nat \/ 0%nat = 3%nat \/ 0%nat = 4%nat ->
    forall s', generateAlmaResponse (num 0) s' = generateAlmaResponse (num 0) "hola")).
Proof.
  split; [reflexivity |].
  apply (C3_reply_contains_input (num 0) "hola" 0). reflexivity.
Defined.



(** C5. For every input [s] and every draw [r] in [[0,1)], the reply is
    one of exactly five strings: a template of [responses s] followed by
    the closing sentence. *)
Theorem C5_reply_in_template_set (r : number) (s : string) :
  in_unit_interval r = true ->
  In (generateAlmaResponse r s) (template_set s) /\
  List.length (template_set s) = 5%nat.
Proof.
  intros Hr. split; [| reflexivity].
  destruct (template_index_in_range r s Hr) as (k & Hk & Hlt).
  rewrite (generate_at_index r s k Hk).
  destruct (nth_error (responses s) k) as [t |] eqn:Ht.
  - cbn [interpolate]. unfold template_set.
    apply (in_map (fun t => (t ++ closing)%string)).
    eapply nth_error_In. exact Ht.
  - apply nth_error_None in Ht. cbn [List.length responses] in Ht. lia.
Qed.

Lemma C5_reply_in_template_set_witness :
  in_unit_interval below_one = true /\
  (In (generateAlmaResponse below_one "hola") (template_set "hola") /\
   List.length (template_set "hola") = 5%nat).
Proof.
  split; [reflexivity |].
  apply (C5_reply_in_template_set below_one "hola"). reflexivity.
Defined.

(** C6, as claimed, fails: for the largest draw below 1, [1 - 2^-53],
    the binary64 value of [1000 + r * 2000] is exactly 3000. *)
Lemma C6_delay_range_counterexample :
  in_unit_interval below_one = true /\
  response_delay below_one = num 3000 /\
  SFltb (response_delay below_one) (num 3000) = false.
Proof. split; [reflexivity | split; reflexivity]. Qed.

(** C6, amended. For every draw [r] in [[0,1)] the delay
    [1000 + r * 2000] satisfies [1000 <= delay <= 3000], and
    [delay < 3000] for every draw other than [1 - 2^-53]. *)
Theorem C6_delay_range (r : number) :
  in_unit_interval r = true ->
  SFleb (num 1000) (response_delay r) = true /\
  SFleb (response_delay r) (num 3000) = true /\
  (r <> below_one -> SFltb (response_delay r) (num 3000) = true).
Proof.
  intros Hr. destruct (response_delay_bounds r Hr) as [Hlo Hhi].
  split; [exact Hlo | split; [exact Hhi |]].
  intros Hne. exact (response_delay_below_3000 r Hr Hne).
Qed.

Lemma C6_delay_range_witness :
  in_unit_interval one_quarter = true /\
  (SFleb (num 1000) (response_delay one_quarter) = true /\
   SFleb (response_delay one_quarter) (num 3000) = true /\
   (one_quarter <> below_one ->
    SFltb (response_delay one_quarter) (num 3000) = true)).
Proof.
  split; [reflexivity |]. apply (C6_delay_range one_quarter). reflexivity.
Defined.

(** C7, as claimed, fails: the time stamps are wall-clock reads, and the
    page does nothing to order them. With the clock set back between the
    first render (at 10) and a send (at 5), the user message comes after
    the greeting and carries the earlier time stamp. *)
Lemma C7_messages_chronological_counterexample :
  exists st,
    run [Send 5 5 one_quarter "hola"] (initial 10) = Some st /\
    map timestamp (messages st) = [10; 5] /\
    ~ chronological (messages st).
Proof.
  eexists. split; [reflexivity | split; [reflexivity |]].
  intros H. specialize (H 0%nat _ _ eq_refl eq_refl). cbn in H. lia.
Qed.

(** C7, amended. In every state reached from the initial one by a run
    along which the values of [new Date()] never decrease ([t0] at the
    first render, then the one read by each send and each callback), the
    messages are in chronological order:
    [messages[i].timestamp <= messages[i+1].timestamp] whenever both
    exist. *)
Theorem C7_messages_chronological (t0 : Z) (evs : list Event) (st : Session) :
  nondecreasing (t0 :: flat_map date_reads evs) ->
  run evs (initial t0) = Some st ->
  chronological (messages st).
Proof.
  intros Hc Hrun i a b Ha Hb.
  apply (nondecreasing_nth (map timestamp (messages st)) i).
  - apply (run_chronological evs (initial t0) st t0); [exact I | | exact Hc | exact Hrun].
    cbn. constructor; [lia | constructor].
  - rewrite nth_error_map, Ha. reflexivity.
  - rewrite nth_error_map, Hb. reflexivity.
Qed.

Lemma C7_messages_chronological_witness :
  nondecreasing (0 :: flat_map date_reads
                   [Send 1 2 one_quarter "hola"; TimerFires 0 1500 1501 below_one; Unmount]) /\
  exists st,
    run [Send 1 2 one_quarter "hola"; TimerFires 0 1500 1501 below_one; Unmount] (initial 0)
      = Some st /\
    chronological (messages st).
Proof.
  split; [cbn; lia |].
  eexists. split; [reflexivity |].
  apply (C7_messages_chronological 0
           [Send 1 2 one_quarter "hola"; TimerFires 0 1500 1501 below_one; Unmount]).
  - cbn; lia.
  - reflexivity.
Defined.

(** C8. The message store is append-only: a send and a timer callback
    each add one message at the end (none once the view is destroyed), and
    every message already in the list keeps its position and all its
    fields; no step removes or changes a message. *)
Theorem C8_messages_append_only (ev : Event) (st st' : Session) :
  step ev st = Some st' ->
  (forall i m, nth_error (messages st) i = Some m ->
               nth_error (messages st') i = Some m) /\
  match ev with
  | Send _ _ _ _ | TimerFires _ _ _ _ =>
      if mounted st
      then exists m, messages st' = messages st ++ [m]
      else messages st' = messages st
  | Unmount => messages st' = messages st
  end.
Proof.
  intros Hstep. pose proof (step_messages ev st st' Hstep) as Hm.
  destruct ev as [now_id now_ts random text | i now_id now_ts random |].
  - destruct (mounted st).
    + destruct Hm as (m & Hm & _). split; [| exists m; exact Hm].
      intros j x Hx. rewrite Hm. apply nth_error_prefix. exact Hx.
    + split; [| exact Hm]. intros j x Hx. rewrite Hm. exact Hx.
  - destruct (mounted st).
    + destruct Hm as (m & Hm & _). split; [| exists m; exact Hm].
      intros j x Hx. rewrite Hm. apply nth_error_prefix. exact Hx.
    + split; [| exact Hm]. intros j x Hx. rewrite Hm. exact Hx.
  - split; [| exact Hm]. intros j x Hx. rewrite Hm. exact Hx.
Qed.

Lemma C8_messages_append_only_witness :
  let st := handleSendMessage 1 2 one_quarter "hola" (initial 0) in
  exists st',
    step (TimerFires 0 1500 1501 below_one) st = Some st' /\
    (forall i m, nth_error (messages st) i = Some m ->
                 nth_error (messages st') i = Some m) /\
    exists m, messages st' = messages st ++ [m].
Proof.
  cbv zeta. eexists. split; [reflexivity |].
  exact (C8_messages_append_only (TimerFires 0 1500 1501 below_one)
           (handleSendMessage 1 2 one_quarter "hola" (initial 0)) _ eq_refl).
Defined.

(** C9. The initial session has exactly one message, the assistant's
    greeting, and [isTyping] is false. *)
Theorem C9_initial_state (t0 : Z) :
  (exists m, messages (initial t0) = [m] /\ role m = assistant /\ content m = greeting) /\
  isTyping (initial t0) = false /\
  timers (initial t0) = [].
Proof.
  split; [| split; reflexivity].
  eexists. split; [reflexivity | split; reflexivity].
Qed.

(** C10. For every draw [r] in [[0,1)], [Math.floor(r * 5)] is an index
    within [0..4], so [responses[...]] is one of the five templates and
    never [undefined]. *)
Theorem C10_template_index_in_bounds (r : number) (s : string) :
  in_unit_interval r = true ->
  exists k t,
    index_of_number (template_index r s) = Some k /\
    (k < List.length (responses s))%nat /\
    array_get (responses s) (template_index r s) = Some t.
Proof.
  intros Hr. destruct (template_index_in_range r s Hr) as (k & Hk & Hlt).
  destruct (nth_error (responses s) k) as [t |] eqn:Ht.
  - exists k, t. split; [exact Hk | split; [exact Hlt |]].
    unfold array_get. rewrite Hk. exact Ht.
  - apply nth_error_None in Ht. cbn [List.length responses] in Ht. lia.
Qed.

Lemma C10_template_index_in_bounds_witness :
  in_unit_interval below_one = true /\
  exists k t,
    index_of_number (template_index below_one "hola") = Some k /\
    (k < List.length (responses "hola"))%nat /\
    array_get (responses "hola") (template_index below_one "hola") = Some t.
Proof.
  split; [reflexivity |].
  apply (C10_template_index_in_bounds below_one "hola"). reflexivity.
Defined.

(* ================================================================= *)
(** * Runs of the page: what the handlers keep *)

Lemma step_cases (ev : Event) (st st' : Session) :
  step ev st = Some st' ->
  match ev with
  | Send now_id now_ts random text =>
      messages st' =
        (if mounted st
         then messages st ++ [ {| id := toString now_id; content := text; role := user;
                                  timestamp := now_ts |} ]
         else messages st) /\
      isTyping st' = (if mounted st then true else isTyping st) /\
      timers st' = timers st ++ [ {| delay := response_delay random; captured := text |} ] /\
      mounted st' = mounted st
  | TimerFires i now_id now_ts random =>
      exists t, nth_error (timers st) i = Some t /\
        messages st' =
          (if mounted st
           then messages st ++
                  [ {| id := toString (now_id + 1);
                       content := generateAlmaResponse random (captured t);
                       role := assistant; timestamp := now_ts |} ]
           else messages st) /\
        isTyping st' = (if mounted st then false else isTyping st) /\
        timers st' = remove_nth i (timers st) /\
        mounted st' = mounted st
  | Unmount =>
      messages st' = messages st /\ isTyping st' = isTyping st /\
      timers st' = timers st /\ mounted st' = false
  end.
Proof.
  destruct ev as [now_id now_ts random text | i now_id now_ts random |];
    cbn [step]; intros H.
  - injection H as <-. exact (handleSendMessage_inv now_id now_ts random text st).
  - exact (fire_inv _ _ _ _ _ _ H).
  - injection H as <-. repeat split.
Qed.

Lemma step_live (ev : Event) (st st' : Session) :
  step ev st = Some st' -> mounted st' = true -> mounted st = true.
Proof.
  intros Hstep Hm. destruct (mounted st) eqn:E; [reflexivity |].
  rewrite (step_mounted ev st st' Hstep E) in Hm. discriminate.
Qed.

Lemma run_live (evs : list Event) (st st' : Session) :
  run evs st = Some st' -> mounted st' = true -> mounted st = true.
Proof.
  intros Hrun Hm. destruct (mounted st) eqn:E; [reflexivity |].
  destruct (run_unmounted evs st st' E Hrun) as (_ & _ & H).
  rewrite H in Hm. discriminate.
Qed.

Lemma step_prefix (ev : Event) (st st' : Session) :
  step ev st = Some st' -> exists l, messages st' = messages st ++ l.
Proof.
  intros H. pose proof (step_messages ev st st' H) as Hc.
  assert (Hnil : messages st' = messages st -> exists l, messages st' = messages st ++ l).
  { intros ->. exists []. symmetry; apply app_nil_r. }
  destruct ev as [now_id now_ts random text | i now_id now_ts random |];
    [destruct (mounted st) | destruct (mounted st) |]; try exact (Hnil Hc);
    destruct Hc as (m & -> & _); eexists; reflexivity.
Qed.

Lemma remove_nth_length {A : Type} (i : nat) (l : list A) (x : A) :
  nth_error l i = Some x -> S (List.length (remove_nth i l)) = List.length l.
Proof.
  revert i; induction l as [| a l IH]; intros i H; [destruct i; discriminate |].
  destruct i as [| i]; [reflexivity |].
  cbn [remove_nth List.length]. rewrite (IH i H). reflexivity.
Qed.

Lemma remove_nth_In {A : Type} (i : nat) (l : list A) (x : A) :
  In x (remove_nth i l) -> In x l.
Proof.
  revert i; induction l as [| a l IH]; intros i H; [destruct i; exact H |].
  destruct i as [| i]; [right; exact H |].
  destruct H as [H | H]; [left; exact H | right; exact (IH i H)].
Qed.

Lemma count_role_app (ro : Role) (l l' : list Message) :
  count_role ro (l ++ l') = (count_role ro l + count_role ro l')%nat.
Proof. unfold count_role. rewrite filter_app, length_app. reflexivity. Qed.

Lemma sends_cons (ev : Event) (evs : list Event) :
  sends (ev :: evs) = ((if is_send ev then 1 else 0) + sends evs)%nat.
Proof. unfold sends. cbn [filter]. destruct (is_send ev); reflexivity. Qed.

Lemma fires_cons (ev : Event) (evs : list Event) :
  fires (ev :: evs) = ((if is_fire ev then 1 else 0) + fires evs)%nat.
Proof. unfold fires. cbn [filter]. destruct (is_fire ev); reflexivity. Qed.

(** One step: the timers it adds and removes, and the messages it adds. *)
Lemma step_counts (ev : Event) (st st' : Session) :
  step ev st = Some st' ->
  (List.length (timers st') + (if is_fire ev then 1 else 0)
   = List.length (timers st) + (if is_send ev then 1 else 0))%nat /\
  exists l, messages st' = messages st ++ l /\
    (List.length l <= (if is_send ev then 1 else 0) + (if is_fire ev then 1 else 0))%nat /\
    (mounted st' = true ->
     List.length l = ((if is_send ev then 1 else 0) + (if is_fire ev then 1 else 0))%nat /\
     count_role user l = (if is_send ev then 1 else 0)%nat /\
     count_role assistant l = (if is_fire ev then 1 else 0)%nat).
Proof.
  intros Hstep. pose proof (step_cases ev st st' Hstep) as Hc.
  destruct ev as [now_id now_ts random text | i now_id now_ts random |];
    cbn [is_send is_fire].
  - destruct Hc as (Hm & _ & Htm & Hmo). split.
    + rewrite Htm, length_app. cbn. lia.
    + rewrite Hmo. destruct (mounted st).
      * eexists. split; [exact Hm |]. cbn. split; [lia |]. intros _. repeat split.
      * exists []. rewrite app_nil_r. split; [exact Hm |]. cbn.
        split; [lia | discriminate].
  - destruct Hc as (t & Hnth & Hm & _ & Htm & Hmo). split.
    + rewrite Htm. pose proof (remove_nth_length i (timers st) t Hnth). lia.
    + rewrite Hmo. destruct (mounted st).
      * eexists. split; [exact Hm |]. cbn. split; [lia |]. intros _. repeat split.
      * exists []. rewrite app_nil_r. split; [exact Hm |]. cbn.
        split; [lia | discriminate].
  - destruct Hc as (Hm & _ & Htm & Hmo). split.
    + rewrite Htm. lia.
    + exists []. rewrite app_nil_r. split; [exact Hm |]. cbn.
      split; [lia |]. rewrite Hmo. discriminate.
Qed.

(** Counting along a run from any state. *)
Lemma run_counts (evs : list Event) (st st' : Session) :
  run evs st = Some st' ->
  (List.length (timers st') + fires evs = List.length (timers st) + sends evs)%nat /\
  exists l, messages st' = messages st ++ l /\
    (List.length l <= sends evs + fires evs)%nat /\
    (mounted st' = true ->
     List.length l = (sends evs + fires evs)%nat /\
     count_role user l = sends evs /\
     count_role assistant l = fires evs).
Proof.
  revert st; induction evs as [| ev evs IH]; intros st Hrun.
  - injection Hrun as <-. split; [reflexivity |].
    exists []. rewrite app_nil_r. repeat split. apply Nat.le_refl.
  - cbn [run] in Hrun. destruct (step ev st) as [st1 |] eqn:Hstep; [| discriminate].
    destruct (IH st1 Hrun) as (Ht & l & Hl & Hle & Hlive).
    destruct (step_counts ev st st1 Hstep) as (Ht1 & l1 & Hl1 & Hle1 & Hlive1).
    rewrite sends_cons, fires_cons. split; [lia |].
    exists (l1 ++ l). split; [rewrite Hl, Hl1, app_assoc; reflexivity |].
    rewrite length_app, !count_role_app. split; [lia |].
    intros Hm. destruct (Hlive Hm) as (E1 & E2 & E3).
    destruct (Hlive1 (run_live evs st1 st' Hrun Hm)) as (F1 & F2 & F3).
    repeat split; lia.
Qed.

(** X1. Runs are append-only: the messages of the state a run starts
    from are a prefix of the messages it ends with. The run adds at most
    one message per send and per timer that fires, and exactly one for
    each when the view is still mounted at its end. *)
Theorem X1_run_appends (evs : list Event) (st st' : Session) :
  run evs st = Some st' ->
  exists l, messages st' = messages st ++ l /\
            (List.length l <= sends evs + fires evs)%nat /\
            (mounted st' = true -> List.length l = (sends evs + fires evs)%nat).
Proof.
  intros H. destruct (run_counts evs st st' H) as (_ & l & Hl & Hle & Hlive).
  exists l. split; [exact Hl | split; [exact Hle |]].
  intros Hm. exact (proj1 (Hlive Hm)).
Qed.

Lemma X1_run_appends_witness :
  exists st',
    run [Send 1 2 one_quarter "hola"; TimerFires 0 1500 1501 below_one;
         Send 1600 1601 below_one "otra"]
      (initial 0) = Some st' /\
    exists l, messages st' = messages (initial 0) ++ l /\
      (List.length l <=
         sends [Send 1 2 one_quarter "hola"; TimerFires 0 1500 1501 below_one;
                Send 1600 1601 below_one "otra"]
         + fires [Send 1 2 one_quarter "hola"; TimerFires 0 1500 1501 below_one;
                  Send 1600 1601 below_one "otra"])%nat /\
      (mounted st' = true ->
       List.length l =
         (sends [Send 1 2 one_quarter "hola"; TimerFires 0 1500 1501 below_one;
                 Send 1600 1601 below_one "otra"]
          + fires [Send 1 2 one_quarter "hola"; TimerFires 0 1500 1501 below_one;
                   Send 1600 1601 below_one "otra"])%nat).
Proof.
  eexists. split; [reflexivity |].
  apply (X1_run_appends
           [Send 1 2 one_quarter "hola"; TimerFires 0 1500 1501 below_one;
            Send 1600 1601 below_one "otra"]
           (initial 0)).
  reflexivity.
Defined.

(** X2. In every state reached from the initial one, the pending timers
    are those of the sends whose timer has not fired. While the view is
    mounted, each user message is either answered or still has its timer
    pending: the user messages are as many as the sends, the assistant
    messages as many as the timers that fired, plus the greeting. *)
Theorem X2_replies_balance (t0 : Z) (evs : list Event) (st : Session) :
  run evs (initial t0) = Some st ->
  (List.length (timers st) + fires evs = sends evs)%nat /\
  (mounted st = true ->
   count_role user (messages st) = sends evs /\
   count_role assistant (messages st) = S (fires evs) /\
   (count_role assistant (messages st) + List.length (timers st)
    = S (count_role user (messages st)))%nat).
Proof.
  intros H. destruct (run_counts evs (initial t0) st H) as (Ht & l & Hl & _ & Hlive).
  cbn [initial timers List.length] in Ht. split; [exact Ht |].
  intros Hm. destruct (Hlive Hm) as (_ & Hu & Ha).
  rewrite Hl, !count_role_app, Hu, Ha. cbn. lia.
Qed.

Lemma X2_replies_balance_witness :
  exists st,
    run [Send 1 2 one_quarter "hola"; Send 3 4 below_one "otra"; TimerFires 1 1500 1501 (num 0)]
      (initial 0) = Some st /\
    ((List.length (timers st)
      + fires [Send 1 2 one_quarter "hola"; Send 3 4 below_one "otra";
               TimerFires 1 1500 1501 (num 0)]
      = sends [Send 1 2 one_quarter "hola"; Send 3 4 below_one "otra";
               TimerFires 1 1500 1501 (num 0)])%nat /\
     (mounted st = true ->
      count_role user (messages st)
        = sends [Send 1 2 one_quarter "hola"; Send 3 4 below_one "otra";
                 TimerFires 1 1500 1501 (num 0)] /\
      count_role assistant (messages st)
        = S (fires [Send 1 2 one_quarter "hola"; Send 3 4 below_one "otra";
                    TimerFires 1 1500 1501 (num 0)]) /\
      (count_role assistant (messages st) + List.length (timers st)
       = S (count_role user (messages st)))%nat)).
Proof.
  eexists. split; [reflexivity |].
  apply (X2_replies_balance 0
           [Send 1 2 one_quarter "hola"; Send 3 4 below_one "otra";
            TimerFires 1 1500 1501 (num 0)]).
  reflexivity.
Defined.

(** Along a run, a property of the pending timers that every send
    establishes for its own timer holds for all of them. *)
Lemma run_timers_inv (P : Session -> Timer -> Prop) :
  (forall ev st st' t, step ev st = Some st' -> P st t -> P st' t) ->
  forall (good : Event -> bool),
  (forall now_id now_ts random text st,
      good (Send now_id now_ts random text) = true ->
      P (handleSendMessage now_id now_ts random text st)
        {| delay := response_delay random; captured := text |}) ->
  forall evs st st',
    forallb good evs = true ->
    Forall (P st) (timers st) ->
    run evs st = Some st' ->
    Forall (P st') (timers st').
Proof.
  intros Hmono good Hsend evs.
  induction evs as [| ev evs IH]; intros st st' Hgood Hinv Hrun.
  - injection Hrun as <-. exact Hinv.
  - cbn [run] in Hrun. destruct (step ev st) as [st1 |] eqn:Hstep; [| discriminate].
    cbn [forallb] in Hgood. apply andb_true_iff in Hgood. destruct Hgood as [Hev Hgood].
    apply (IH st1 st' Hgood); [| exact Hrun].
    assert (Hkeep : Forall (P st1) (timers st)).
    { eapply Forall_impl; [| exact Hinv]. intros t. apply (Hmono ev st st1 t Hstep). }
    pose proof (step_cases ev st st1 Hstep) as Hc.
    destruct ev as [now_id now_ts random text | i now_id now_ts random |].
    + destruct Hc as (_ & _ & Htm & _). rewrite Htm. apply Forall_app. split; [exact Hkeep |].
      constructor; [| constructor].
      cbn [step] in Hstep. injection Hstep as <-. apply Hsend. exact Hev.
    + destruct Hc as (t & _ & _ & _ & Htm & _). rewrite Htm.
      rewrite Forall_forall in Hkeep |- *. intros x Hx.
      apply Hkeep. exact (remove_nth_In i _ x Hx).
    + destruct Hc as (_ & _ & Htm & _). rewrite Htm. exact Hkeep.
Qed.

(** X3. In every state reached from the initial one with the view still
    mounted, the text a pending timer will answer is the content of a user
    message of the list. *)
Theorem X3_pending_timer_has_message (t0 : Z) (evs : list Event) (st : Session) :
  run evs (initial t0) = Some st ->
  mounted st = true ->
  forall t, In t (timers st) ->
  exists m, In m (messages st) /\ role m = user /\ content m = captured t.
Proof.
  intros Hrun Hlive.
  assert (H : Forall (fun t => mounted st = true ->
                               exists m, In m (messages st) /\ role m = user /\
                                         content m = captured t) (timers st)).
  { apply (run_timers_inv
             (fun s t => mounted s = true ->
                         exists m, In m (messages s) /\ role m = user /\
                                   content m = captured t))
      with (good := fun _ => true) (evs := evs) (st := initial t0).
    - intros ev s s' t Hstep Hp Hm.
      destruct (Hp (step_live ev s s' Hstep Hm)) as (m & Hin & Hr & Hc).
      exists m. split; [| split; assumption].
      destruct (step_prefix ev s s' Hstep) as [l ->]. apply in_or_app. left. exact Hin.
    - intros now_id now_ts random text s _ Hm.
      destruct (handleSendMessage_inv now_id now_ts random text s) as (Hmsg & _ & _ & Hmo).
      cbv zeta in Hmsg, Hmo. rewrite Hmo in Hm. rewrite Hm in Hmsg.
      exists {| id := toString now_id; content := text; role := user;
                timestamp := now_ts |}.
      split; [| split; reflexivity].
      rewrite Hmsg. apply in_or_app. right. left. reflexivity.
    - clear. induction evs; [reflexivity | exact IHevs].
    - constructor.
    - exact Hrun. }
  intros t Ht. rewrite Forall_forall in H. exact (H t Ht Hlive).
Qed.

Lemma X3_pending_timer_has_message_witness :
  exists st,
    run [Send 1 2 one_quarter "hola"; Send 3 4 below_one "otra"; TimerFires 0 1500 1501 (num 0)]
      (initial 0) = Some st /\
    mounted st = true /\
    forall t, In t (timers st) ->
    exists m, In m (messages st) /\ role m = user /\ content m = captured t.
Proof.
  eexists. split; [reflexivity |]. split; [reflexivity |].
  apply (X3_pending_timer_has_message 0
           [Send 1 2 one_quarter "hola"; Send 3 4 below_one "otra";
            TimerFires 0 1500 1501 (num 0)]);
    reflexivity.
Defined.

(** X4. In every state reached from the initial one by a run whose
    sends draw their [Math.random()] from [[0,1)], every pending timer has a
    delay between 1000 and 3000 milliseconds. *)
Theorem X4_pending_delays_in_range (t0 : Z) (evs : list Event) (st : Session) :
  send_draws_in_range evs = true ->
  run evs (initial t0) = Some st ->
  forall t, In t (timers st) ->
  SFleb (num 1000) (delay t) = true /\ SFleb (delay t) (num 3000) = true.
Proof.
  intros Hdraws Hrun.
  assert (H : Forall (fun t => SFleb (num 1000) (delay t) = true /\
                               SFleb (delay t) (num 3000) = true) (timers st)).
  { apply (run_timers_inv
             (fun _ t => SFleb (num 1000) (delay t) = true /\
                         SFleb (delay t) (num 3000) = true))
      with (good := fun ev => match ev with
                              | Send _ _ random _ => in_unit_interval random
                              | _ => true
                              end)
           (evs := evs) (st := initial t0).
    - intros ev s s' t _ Ht. exact Ht.
    - intros now_id now_ts random text s Hr. cbn [delay].
      exact (response_delay_bounds random Hr).
    - exact Hdraws.
    - constructor.
    - exact Hrun. }
  intros t Ht. rewrite Forall_forall in H. exact (H t Ht).
Qed.

Lemma X4_pending_delays_in_range_witness :
  send_draws_in_range [Send 1 2 below_one "hola"; Send 3 4 one_quarter "otra"] = true /\
  exists st,
    run [Send 1 2 below_one "hola"; Send 3 4 one_quarter "otra"] (initial 0) = Some st /\
    forall t, In t (timers st) ->
    SFleb (num 1000) (delay t) = true /\ SFleb (delay t) (num 3000) = true.
Proof.
  split; [reflexivity |].
  eexists. split; [reflexivity |].
  apply (X4_pending_delays_in_range 0
           [Send 1 2 below_one "hola"; Send 3 4 one_quarter "otra"]);
    reflexivity.
Defined.

(* ================================================================= *)
(** * Conversations through the enabled input *)

Lemma chain_snoc {A : Type} (R : A -> A -> Prop) (l : list A) (a b : A) :
  chain R (l ++ [a]) -> R a b -> chain R ((l ++ [a]) ++ [b]).
Proof.
  induction l as [| x l IH]; intros Hc Hab.
  - cbn. split; [exact Hab | exact I].
  - destruct l as [| y l].
    + cbn in Hc |- *. destruct Hc as [Hxa _]. repeat split; assumption.
    + cbn [app] in Hc |- *. destruct Hc as [Hxy Hc]. split; [exact Hxy |].
      exact (IH Hc Hab).
Qed.

Lemma chain_nth {A : Type} (R : A -> A -> Prop) (l : list A) (i : nat) (a b : A) :
  chain R l -> nth_error l i = Some a -> nth_error l (S i) = Some b -> R a b.
Proof.
  revert i; induction l as [| x l IH]; intros i Hc Ha Hb; [destruct i; discriminate |].
  destruct i as [| i].
  - destruct l as [| y l]; [discriminate |].
    cbn in Ha, Hb. injection Ha as ->. injection Hb as ->. destruct Hc as [H _]; exact H.
  - apply (IH i); [| exact Ha | exact Hb].
    destruct l as [| y l]; [exact I | destruct Hc as [_ H]; exact H].
Qed.

Lemma initial_in_turn (t0 : Z) : in_turn (initial t0).
Proof.
  split; [exact I |].
  exists [], {| id := "1"; content := greeting; role := assistant; timestamp := t0 |}.
  split; [reflexivity |]. cbn. split; reflexivity.
Qed.

Lemma step_in_turn (ev : Event) (st st' : Session) :
  in_turn st ->
  (is_send ev = true -> ChatInput_disabled st = false) ->
  step ev st = Some st' ->
  in_turn st'.
Proof.
  intros (Hchain & l & m & Hm & Hrole & Htimers) Hgate Hstep.
  pose proof (step_cases ev st st' Hstep) as Hc.
  destruct (mounted st) eqn:Hmo.
  - specialize (Htimers eq_refl).
    destruct ev as [now_id now_ts random text | i now_id now_ts random |].
    + destruct Hc as (Hm' & Hty & Htm & _).
      unfold ChatInput_disabled in Hgate. rewrite (Hgate eq_refl) in Hrole, Htimers.
      split.
      * rewrite Hm', Hm. apply chain_snoc; [rewrite <- Hm; exact Hchain |].
        unfold follows. rewrite Hrole. reflexivity.
      * eexists. eexists. split; [exact Hm' |]. rewrite Hty. cbn [role content].
        split; [reflexivity |]. intros _. eexists. rewrite Htm, Htimers. reflexivity.
    + destruct Hc as (t & Hnth & Hm' & Hty & Htm & _).
      destruct (isTyping st).
      * destruct Htimers as (d & Hone). rewrite Hone in Hnth, Htm.
        destruct i as [| i]; [| destruct i; discriminate].
        cbn in Hnth. injection Hnth as <-. cbn [captured remove_nth] in *.
        split.
        -- rewrite Hm', Hm. apply chain_snoc; [rewrite <- Hm; exact Hchain |].
           unfold follows. rewrite Hrole. cbn [role content].
           split; [reflexivity | exists random; reflexivity].
        -- eexists. eexists. split; [exact Hm' |]. rewrite Hty. cbn [role].
           split; [reflexivity |]. intros _. exact Htm.
      * rewrite Htimers in Hnth. destruct i; discriminate.
    + destruct Hc as (Hm' & Hty & _ & Hmo'). split; [rewrite Hm'; exact Hchain |].
      exists l, m. split; [rewrite Hm'; exact Hm |]. rewrite Hty.
      split; [exact Hrole |]. rewrite Hmo'. discriminate.
  - assert (Hsame : messages st' = messages st /\ isTyping st' = isTyping st /\
                    mounted st' = false).
    { destruct ev as [now_id now_ts random text | i now_id now_ts random |].
      - destruct Hc as (H1 & H2 & _ & H3). repeat split; assumption.
      - destruct Hc as (t & _ & H1 & H2 & _ & H3). repeat split; assumption.
      - destruct Hc as (H1 & H2 & _ & H3). repeat split; assumption. }
    destruct Hsame as (H1 & H2 & H3).
    split; [rewrite H1; exact Hchain |].
    exists l, m. split; [rewrite H1; exact Hm |]. rewrite H2.
    split; [exact Hrole |]. rewrite H3. discriminate.
Qed.

Lemma run_in_turn (evs : list Event) (st st' : Session) :
  in_turn st ->
  sends_while_enabled evs st = true ->
  run evs st = Some st' ->
  in_turn st'.
Proof.
  revert st; induction evs as [| ev evs IH]; intros st Hinv Hgate Hrun.
  - injection Hrun as <-. exact Hinv.
  - cbn [run] in Hrun. cbn [sends_while_enabled] in Hgate.
    destruct (step ev st) as [st1 |] eqn:Hstep; [| discriminate].
    apply andb_true_iff in Hgate. destruct Hgate as [Hev Hgate].
    apply (IH st1); [| exact Hgate | exact Hrun].
    apply (step_in_turn ev st st1 Hinv); [| exact Hstep].
    intros Hs. rewrite Hs in Hev. apply negb_true_iff in Hev. exact Hev.
Qed.

(** X5. When every send is made while the [ChatInput] is enabled, then
    as long as the view is mounted at most one timer is pending, and
    [isTyping] is true exactly when one is. *)
Theorem X5_typing_iff_pending (t0 : Z) (evs : list Event) (st : Session) :
  sends_while_enabled evs (initial t0) = true ->
  run evs (initial t0) = Some st ->
  mounted st = true ->
  List.length (timers st) = (if isTyping st then 1 else 0)%nat.
Proof.
  intros Hgate Hrun Hlive.
  destruct (run_in_turn evs (initial t0) st (initial_in_turn t0) Hgate Hrun)
    as (_ & l & m & _ & _ & Htimers).
  specialize (Htimers Hlive).
  destruct (isTyping st).
  - destruct Htimers as (d & ->). reflexivity.
  - rewrite Htimers. reflexivity.
Qed.

Lemma X5_typing_iff_pending_witness :
  sends_while_enabled
    [Send 1 2 one_quarter "hola"; TimerFires 0 1500 1501 below_one;
     Send 1600 1601 below_one "otra"] (initial 0) = true /\
  exists st,
    run [Send 1 2 one_quarter "hola"; TimerFires 0 1500 1501 below_one;
         Send 1600 1601 below_one "otra"] (initial 0) = Some st /\
    mounted st = true /\
    List.length (timers st) = (if isTyping st then 1 else 0)%nat.
Proof.
  split; [reflexivity |].
  eexists. split; [reflexivity |]. split; [reflexivity |].
  apply (X5_typing_iff_pending 0
           [Send 1 2 one_quarter "hola"; TimerFires 0 1500 1501 below_one;
            Send 1600 1601 below_one "otra"]);
    reflexivity.
Defined.

(** X6. When every send is made while the [ChatInput] is enabled, the
    conversation goes in turns: after an assistant message comes a user
    message, and after a user message comes the reply generated from that
    message's content. The last message is a user message exactly while
    [isTyping]. This holds in every state of such a run, also after the
    view is destroyed. *)
Theorem X6_conversation_in_turns (t0 : Z) (evs : list Event) (st : Session) :
  sends_while_enabled evs (initial t0) = true ->
  run evs (initial t0) = Some st ->
  (forall i a b,
      nth_error (messages st) i = Some a ->
      nth_error (messages st) (S i) = Some b ->
      follows a b) /\
  exists l m, messages st = l ++ [m] /\
              role m = (if isTyping st then user else assistant).
Proof.
  intros Hgate Hrun.
  destruct (run_in_turn evs (initial t0) st (initial_in_turn t0) Hgate Hrun)
    as (Hchain & l & m & Hm & Hrole & _).
  split.
  - intros i a b Ha Hb. exact (chain_nth follows (messages st) i a b Hchain Ha Hb).
  - exists l, m. split; [exact Hm | exact Hrole].
Qed.

Lemma X6_conversation_in_turns_witness :
  sends_while_enabled
    [Send 1 2 one_quarter "hola"; TimerFires 0 1500 1501 below_one;
     Send 1600 1601 below_one "otra"] (initial 0) = true /\
  exists st,
    run [Send 1 2 one_quarter "hola"; TimerFires 0 1500 1501 below_one;
         Send 1600 1601 below_one "otra"] (initial 0) = Some st /\
    ((forall i a b,
         nth_error (messages st) i = Some a ->
         nth_error (messages st) (S i) = Some b ->
         follows a b) /\
     exists l m, messages st = l ++ [m] /\
                 role m = (if isTyping st then user else assistant)).
Proof.
  split; [reflexivity |].
  eexists. split; [reflexivity |].
  apply (X6_conversation_in_turns 0
           [Send 1 2 one_quarter "hola"; TimerFires 0 1500 1501 below_one;
            Send 1600 1601 below_one "otra"]);
    reflexivity.
Defined.

(* ================================================================= *)
(** * Message ids *)

Lemma toString_inj (a b : Z) : toString a = toString b -> a = b.
Proof.
  unfold toString. intros H. apply DecimalZ.to_int_inj.
  assert (Hnil : forall z, Z.to_int z <> Decimal.Pos Decimal.Nil /\
                           Z.to_int z <> Decimal.Neg Decimal.Nil).
  { intros [| p | p]; cbn; split; try discriminate; intros [= Hp];
      exact (DecimalPos.Unsigned.to_uint_nonnil p Hp). }
  apply (f_equal NilZero.int_of_string) in H.
  rewrite !NilZero.isi in H by apply Hnil.
  injection H as H. exact H.
Qed.

Lemma NoDup_snoc {A : Type} (l : list A) (x : A) :
  NoDup l -> ~ In x l -> NoDup (l ++ [x]).
Proof.
  induction l as [| a l IH]; intros Hl Hx.
  - constructor; [intros [] | constructor].
  - inversion Hl as [| a' l' Ha Hl']; subst. cbn [app]. constructor.
    + intros Hin. apply in_app_or in Hin. destruct Hin as [Hin | [-> | []]].
      * exact (Ha Hin).
      * apply Hx. left. reflexivity.
    + apply IH; [exact Hl' |]. intros Hin. apply Hx. right. exact Hin.
Qed.

Lemma NoDup_map_toString (ns : list Z) : NoDup ns -> NoDup (map toString ns).
Proof.
  induction ns as [| n ns IH]; intros H; [constructor |].
  inversion H as [| n' ns' Hn Hns]; subst. cbn [map]. constructor; [| exact (IH Hns)].
  intros Hin. apply in_map_iff in Hin. destruct Hin as (k & Hk & Hin).
  apply toString_inj in Hk. subst k. exact (Hn Hin).
Qed.

(** X7. On a mounted view, a reply and the user message sent right
    after it get the same id exactly when the send reads [Date.now()] one
    millisecond after the reply's callback did: the reply's id is its
    [Date.now() + 1]. *)
Theorem X7_reply_and_next_send_ids (st st1 : Session) (i : nat)
    (b tb a ta : Z) (r r' : number) (s : string) :
  mounted st = true ->
  fire i b tb r st = Some st1 ->
  exists m1 m2,
    messages (handleSendMessage a ta r' s st1) = messages st ++ [m1; m2] /\
    role m1 = assistant /\ role m2 = user /\
    (id m1 = id m2 <-> a = b + 1).
Proof.
  intros Hlive Hfire. apply fire_inv in Hfire.
  destruct Hfire as (t & _ & Hm & _ & _ & Hmo). rewrite Hlive in Hm, Hmo.
  destruct (handleSendMessage_inv a ta r' s st1) as (Hm2 & _).
  cbv zeta in Hm2. rewrite Hmo, Hm, <- app_assoc in Hm2.
  eexists. eexists. split; [exact Hm2 | split; [| split]].
  - reflexivity.
  - reflexivity.
  - cbn [id]. split.
    + intros H. apply toString_inj in H. lia.
    + intros ->. reflexivity.
Qed.

Lemma X7_reply_and_next_send_ids_witness :
  mounted (handleSendMessage 1 2 one_quarter "hola" (initial 0)) = true /\
  exists st1,
    fire 0 1500 1501 below_one (handleSendMessage 1 2 one_quarter "hola" (initial 0))
      = Some st1 /\
    exists m1 m2,
      messages (handleSendMessage 1501 1502 one_quarter "otra" st1)
        = messages (handleSendMessage 1 2 one_quarter "hola" (initial 0)) ++ [m1; m2] /\
      role m1 = assistant /\ role m2 = user /\
      (id m1 = id m2 <-> 1501 = 1500 + 1).
Proof.
  split; [reflexivity |].
  eexists. split; [reflexivity |].
  apply (X7_reply_and_next_send_ids
           (handleSendMessage 1 2 one_quarter "hola" (initial 0)) _ 0
           1500 1501 1501 1502 below_one one_quarter "otra");
    reflexivity.
Defined.

(** The ids along a run whose [Date.now()] values are spaced: they are
    the decimal strings of distinct numbers, none above the last value
    read plus one. *)
Lemma run_ids (evs : list Event) (st st' : Session) (ns : list Z) (c : Z) :
  map id (messages st) = map toString ns ->
  NoDup ns -> Forall (fun n => n <= c + 1) ns ->
  spaced (c :: flat_map now_reads evs) ->
  run evs st = Some st' ->
  exists ns', map id (messages st') = map toString ns' /\ NoDup ns'.
Proof.
  revert st ns c; induction evs as [| ev evs IH]; intros st ns c Hids Hnd Hle Hsp Hrun.
  - injection Hrun as <-. exists ns. split; assumption.
  - cbn [run] in Hrun. destruct (step ev st) as [st1 |] eqn:Hstep; [| discriminate].
    pose proof (step_cases ev st st1 Hstep) as Hc.
    assert (Hlater : forall k, c <= k -> Forall (fun x => x <= k + 1) ns).
    { intros k Hk. eapply Forall_impl; [| exact Hle]. cbn; intros; lia. }
    assert (Hfresh : forall n, c + 1 < n -> ~ In n ns).
    { intros n Hn Hin. rewrite Forall_forall in Hle. specialize (Hle n Hin). lia. }
    destruct ev as [now_id now_ts random text | i now_id now_ts random |];
      cbn [flat_map now_reads app] in Hsp.
    + destruct Hc as (Hm & _). destruct Hsp as [Hgap Hsp].
      destruct (mounted st).
      * apply (IH st1 (ns ++ [now_id]) now_id); try assumption.
        -- rewrite Hm, !map_app, Hids. reflexivity.
        -- apply NoDup_snoc; [exact Hnd | apply Hfresh; lia].
        -- apply Forall_app. split; [apply Hlater; lia |].
           constructor; [lia | constructor].
      * apply (IH st1 ns now_id); try assumption.
        -- rewrite Hm. exact Hids.
        -- apply Hlater; lia.
    + destruct Hc as (t & _ & Hm & _). destruct Hsp as [Hgap Hsp].
      destruct (mounted st).
      * apply (IH st1 (ns ++ [now_id + 1]) now_id); try assumption.
        -- rewrite Hm, !map_app, Hids. reflexivity.
        -- apply NoDup_snoc; [exact Hnd | apply Hfresh; lia].
        -- apply Forall_app. split; [apply Hlater; lia |].
           constructor; [lia | constructor].
      * apply (IH st1 ns now_id); try assumption.
        -- rewrite Hm. exact Hids.
        -- apply Hlater; lia.
    + destruct Hc as (Hm & _).
      apply (IH st1 ns c); try assumption. rewrite Hm. exact Hids.
Qed.

(** X8. When the [Date.now()] values read along a run are at least 2
    apart (and the first is at least 2), all messages have different ids,
    so the keys of the rendered list are unique. *)
Theorem X8_ids_distinct (t0 : Z) (evs : list Event) (st : Session) :
  spaced (0 :: flat_map now_reads evs) ->
  run evs (initial t0) = Some st ->
  NoDup (map id (messages st)).
Proof.
  intros Hsp Hrun.
  destruct (run_ids evs (initial t0) st [1] 0) as (ns & -> & Hnd);
    [reflexivity | | | exact Hsp | exact Hrun |].
  - constructor; [intros [] | constructor].
  - constructor; [lia | constructor].
  - exact (NoDup_map_toString ns Hnd).
Qed.

Lemma X8_ids_distinct_witness :
  spaced (0 :: flat_map now_reads
                 [Send 10 11 one_quarter "hola"; TimerFires 0 1500 1501 below_one;
                  Send 1502 1503 below_one "otra"]) /\
  exists st,
    run [Send 10 11 one_quarter "hola"; TimerFires 0 1500 1501 below_one;
         Send 1502 1503 below_one "otra"] (initial 0) = Some st /\
    NoDup (map id (messages st)).
Proof.
  split; [cbn; lia |].
  eexists. split; [reflexivity |].
  apply (X8_ids_distinct 0
           [Send 10 11 one_quarter "hola"; TimerFires 0 1500 1501 below_one;
            Send 1502 1503 below_one "otra"]).
  - cbn; lia.
  - reflexivity.
Defined.

(* ================================================================= *)
(** * The five replies *)

(** X9. For every input the five possible replies are pairwise
    different, so a reply tells which template produced it. *)
Theorem X9_template_set_distinct (s : string) : NoDup (template_set s).
Proof.
  unfold template_set, responses. cbn [map append].
  repeat constructor; cbn [In]; intros H;
    repeat (destruct H as [H | H]); try discriminate H; try exact H.
Qed.

(* ================================================================= *)
(** * The views *)

(** X10. [ChatMessage] shows exactly one avatar and puts it on the
    sender's side: for an assistant message the texts are the letter A,
    the content and the time; for a user message the content, the time and
    the letter U. The content is shown as it is. *)
Theorem X10_ChatMessage_texts (toLocaleTimeString : Z -> string) (m : Message) :
  texts (ChatMessage toLocaleTimeString m) =
  match role m with
  | assistant => ["A"; content m; toLocaleTimeString (timestamp m)]
  | user => [content m; toLocaleTimeString (timestamp m); "U"]
  end.
Proof. destruct m as [i c [|] t]; reflexivity. Qed.

(** X11. [Card] renders its image exactly when [imageUrl] is given and
    is not the empty string; the image then has [imageUrl] as [src] and
    the title as [alt]. Any other [img] comes from the children. *)
Theorem X11_Card_image (title description : string)
    (imageUrl className : option string) (children : list VNode) :
  elements "img" (Card title description imageUrl className children) =
  match imageUrl with
  | Some (String c url) =>
      [ [("src", String c url); ("alt", title);
         ("className", "w-full h-full object-cover transition-transform hover:scale-105")] ]
  | _ => []
  end ++ flat_map (elements "img") children.
Proof.
  destruct imageUrl as [[| c url] |]; cbn; rewrite app_nil_r; reflexivity.
Qed.
